(** * RIKA 2.0: the tool broker and the intelligence router

    A shallow embedding of [ToolBroker] (health monitoring, retries and
    fallback chains) and of [IntelligenceRouter] (intent cache, QoS tier
    selection, memory shaping and the cost sentinel), followed by the
    properties of the design document that these two classes decide.

    Conventions of the embedding.
    - A JavaScript [Map] keyed by strings is a [gmap string _]; a [Map]
      whose iteration order is observed is an association list in insertion
      order.
    - An [async] method is run to completion; what the outside world answers
      is supplied by an oracle that sees the whole history of interactions.
      [callProvider] is given a second time with its suspensions
      ([callProviderAmid]), for the properties that depend on what other
      tasks do to the broker while a call waits.
    - A thrown [Error] is a value of [BrokerError]; each constructor stands
      for one message template of the source, rendered by [message].
    - Amounts of money are JavaScript numbers, that is binary64 floats. *)

From Stdlib Require Import ZArith String List Lia PrimFloat.
From Stdlib Require Uint63.
From Equations Require Import Equations.
From stdpp Require Import gmap strings list.

Set Warnings "-inexact-float".
Local Open Scope string_scope.

(** ** Errors and results *)

Inductive BrokerError : Type :=
| ProviderNotAvailable (providerName : string)
| ProviderUnhealthy (providerName : string) (failures : nat)
| MaxRetriesExceeded (providerName operation : string)
| UnknownProvider (providerName : string)
| UnknownOperation (family operation : string)
| CallFailed (msg : string)
| AllProvidersFailed (service : string).

(** Decimal rendering of a counter, for the one template that prints one. *)
Fixpoint digitsOf (fuel n : nat) (acc : string) : string :=
  match fuel with
  | O => acc
  | S fuel' =>
      let acc' := String (Ascii.ascii_of_nat (48 + n mod 10)) acc in
      if (n / 10 =? 0)%nat then acc' else digitsOf fuel' (n / 10) acc'
  end.

Definition natToString (n : nat) : string := digitsOf (S n) n "".

(** The [message] property of the thrown [Error]. *)
Definition message (e : BrokerError) : string :=
  match e with
  | ProviderNotAvailable p => "Provider " +:+ p +:+ " not available"
  | ProviderUnhealthy p n =>
      "Provider " +:+ p +:+ " is unhealthy (" +:+ natToString n +:+ " failures)"
  | MaxRetriesExceeded p op => "Max retries exceeded for " +:+ p +:+ "." +:+ op
  | UnknownProvider p => "Unknown provider: " +:+ p
  | UnknownOperation family op => "Unknown " +:+ family +:+ " operation: " +:+ op
  | CallFailed msg => msg
  | AllProvidersFailed service => "All providers failed for service: " +:+ service
  end.

Inductive Result (A : Type) : Type :=
| Returned (a : A)
| Threw (e : BrokerError).
Arguments Returned {A} a.
Arguments Threw {A} e.

(** ** The outside world *)

(** What the broker does that an observer outside the process can see. *)
Inductive Event : Type :=
| EvInvoke (providerName operation : string)
| EvAttempt (providerName operation : string) (sent : bool)
| EvDelay (ms : Z).

(** Traces are kept newest first. *)
Definition Trace : Type := list Event.

Inductive NetReply : Type :=
| NetOk (payload : string)
| NetErr (msg : string).

(** The provider's answer to a request, given everything that happened
    before it. *)
Definition Net : Type := Trace -> string -> string -> NetReply.

(** ** Broker state *)

Record Health : Type := mkHealth {
  healthy : bool;
  latency : option Z;
  lastCheck : Z;
  consecutiveFailures : nat;
  error : option string
}.

Record ToolBroker : Type := mkBroker {
  providers : list string;
  healthStatus : gmap string Health;
  retryAttempts : gmap string nat;
  fallbacks : gmap string (list string)
}.

Record Options : Type := mkOptions { maxRetries : option nat }.

Definition defaultOptions : Options := {| maxRetries := None |}.

(** [setupFallbacks] *)
Definition setupFallbacks : gmap string (list string) :=
  <["vector" := ["pinecone"; "sqlite"]]>
  (<["search" := ["brave"; "duckduckgo"]]>
  (<["tts" := ["elevenlabs"; "browser"]]>
  (<["llm" := ["openai"; "local"]]> ∅))).

(** The broker as the constructor creates it, before any of the work
    [initializeProviders] starts has been done. *)
Definition newBroker : ToolBroker :=
  {| providers := []; healthStatus := ∅; retryAttempts := ∅; fallbacks := ∅ |}.

(** [this.providers.set(name, client)]: a name already present keeps its
    place in the iteration order. *)
Definition register (b : ToolBroker) (name : string) : ToolBroker :=
  {| providers :=
       if bool_decide (name ∈ providers b) then providers b
       else providers b ++ [name];
     healthStatus := healthStatus b;
     retryAttempts := retryAttempts b;
     fallbacks := fallbacks b |}.

Definition withFallbacks (b : ToolBroker) : ToolBroker :=
  {| providers := providers b;
     healthStatus := healthStatus b;
     retryAttempts := retryAttempts b;
     fallbacks := setupFallbacks |}.

(** The broker once [initializeProviders] has run to its end: [names] are
    the providers whose credentials were configured, in the order in which
    the method tries them. *)
Definition initialBroker (names : list string) : ToolBroker :=
  withFallbacks (fold_left register names newBroker).

(** ** Health monitoring *)

Inductive ProbeReply : Type :=
| ProbeAnswer (positive : bool)
| ProbeThrew (msg : string).

(** One probe as the monitor sees it: the reply, with [positive] the
    provider's own test on it (a choice returned, an account listed,
    status 200), the time the probe took and the clock when it was
    recorded. *)
Record Probe : Type := mkProbe {
  reply : ProbeReply;
  elapsed : Z;
  checkedAt : Z
}.

(** The [switch (name)] of [performHealthChecks]: [inl isHealthy] when the
    [try] block completes, [inr msg] when it throws. *)
Definition probeOutcome (name : string) (r : ProbeReply) : bool + string :=
  if bool_decide (name = "openai") then
    match r with ProbeAnswer b => inl b | ProbeThrew m => inr m end
  else if bool_decide (name = "elevenlabs") then inl true
  else if bool_decide (name = "twilio") then
    match r with ProbeAnswer b => inl b | ProbeThrew m => inr m end
  else if bool_decide (name = "supabase") then
    match r with ProbeAnswer _ => inl true | ProbeThrew m => inr m end
  else if bool_decide (name = "brave") then
    match r with ProbeAnswer b => inl b | ProbeThrew m => inr m end
  else inl true.

(** [this.healthStatus.get(name)?.consecutiveFailures || 0] *)
Definition failuresSoFar (b : ToolBroker) (name : string) : nat :=
  match healthStatus b !! name with
  | Some h => consecutiveFailures h
  | None => 0
  end.

(** The body of the [for] loop of [performHealthChecks]. *)
Definition checkOne (world : string -> Probe) (b : ToolBroker) (name : string)
  : ToolBroker :=
  let p := world name in
  match probeOutcome name (reply p) with
  | inl isHealthy =>
      {| providers := providers b;
         healthStatus :=
           <[name := {| healthy := isHealthy;
                        latency := Some (elapsed p);
                        lastCheck := checkedAt p;
                        consecutiveFailures :=
                          if isHealthy then 0 else failuresSoFar b name + 1;
                        error := None |}]> (healthStatus b);
         retryAttempts :=
           if isHealthy then delete name (retryAttempts b) else retryAttempts b;
         fallbacks := fallbacks b |}
  | inr msg =>
      {| providers := providers b;
         healthStatus :=
           <[name := {| healthy := false;
                        latency := None;
                        lastCheck := checkedAt p;
                        consecutiveFailures := failuresSoFar b name + 1;
                        error := Some msg |}]> (healthStatus b);
         retryAttempts := retryAttempts b;
         fallbacks := fallbacks b |}
  end.

Definition performHealthChecks (world : string -> Probe) (b : ToolBroker)
  : ToolBroker :=
  fold_left (checkOne world) (providers b) b.

(** ** Provider calls *)

(** A request that leaves the process. *)
Definition request (net : Net) (tr : Trace) (providerName operation : string)
  : Result string * bool :=
  (match net tr providerName operation with
   | NetOk payload => Returned payload
   | NetErr msg => Threw (CallFailed msg)
   end, true).

Definition unknownOperation (family operation : string) : Result string * bool :=
  (Threw (UnknownOperation family operation), false).

Definition oneOf (operation : string) (known : list string) : bool :=
  existsb (String.eqb operation) known.

Definition callOpenAI (net : Net) (tr : Trace) (operation : string) :=
  if oneOf operation ["chat"; "transcribe"]
  then request net tr "openai" operation
  else unknownOperation "OpenAI" operation.

Definition callElevenLabs (net : Net) (tr : Trace) (operation : string) :=
  if oneOf operation ["synthesize"; "voices"]
  then request net tr "elevenlabs" operation
  else unknownOperation "ElevenLabs" operation.

Definition callTwilio (net : Net) (tr : Trace) (operation : string) :=
  if oneOf operation ["call"; "message"]
  then request net tr "twilio" operation
  else unknownOperation "Twilio" operation.

Definition callPinecone (net : Net) (tr : Trace) (operation : string) :=
  if oneOf operation ["upsert"; "query"]
  then request net tr "pinecone" operation
  else unknownOperation "Pinecone" operation.

Definition callSupabase (net : Net) (tr : Trace) (operation : string) :=
  if oneOf operation ["insert"; "select"; "update"; "delete"]
  then request net tr "supabase" operation
  else unknownOperation "Supabase" operation.

Definition callTelegram (net : Net) (tr : Trace) (operation : string) :=
  if oneOf operation ["sendMessage"; "sendPhoto"]
  then request net tr "telegram" operation
  else unknownOperation "Telegram" operation.

Definition callBrave (net : Net) (tr : Trace) (operation : string) :=
  if oneOf operation ["search"]
  then request net tr "brave" operation
  else unknownOperation "Brave" operation.

(** The [switch (providerName)] inside the [try] block of [callProvider]:
    the result of the attempt, and whether a request was sent. *)
Definition dispatch (net : Net) (tr : Trace) (providerName operation : string)
  : Result string * bool :=
  if bool_decide (providerName = "openai") then callOpenAI net tr operation
  else if bool_decide (providerName = "elevenlabs") then callElevenLabs net tr operation
  else if bool_decide (providerName = "twilio") then callTwilio net tr operation
  else if bool_decide (providerName = "pinecone") then callPinecone net tr operation
  else if bool_decide (providerName = "supabase") then callSupabase net tr operation
  else if bool_decide (providerName = "telegram") then callTelegram net tr operation
  else if bool_decide (providerName = "brave") then callBrave net tr operation
  else (Threw (UnknownProvider providerName), false).

(** [`${providerName}-${operation}`] *)
Definition retryKey (providerName operation : string) : string :=
  providerName +:+ "-" +:+ operation.

(** [options.maxRetries || 3] *)
Definition maxRetriesOf (options : Options) : nat :=
  match maxRetries options with
  | Some (S n) => S n
  | _ => 3
  end.

(** [this.retryAttempts.get(key) || 0] *)
Definition currentAttemptOf (b : ToolBroker) (providerName operation : string) : nat :=
  match retryAttempts b !! retryKey providerName operation with
  | Some n => n
  | None => 0
  end.

Definition setRetry (b : ToolBroker) (key : string) (n : nat) : ToolBroker :=
  {| providers := providers b;
     healthStatus := healthStatus b;
     retryAttempts := <[key := n]> (retryAttempts b);
     fallbacks := fallbacks b |}.

Definition clearRetry (b : ToolBroker) (key : string) : ToolBroker :=
  {| providers := providers b;
     healthStatus := healthStatus b;
     retryAttempts := delete key (retryAttempts b);
     fallbacks := fallbacks b |}.

(** [this.providers.get(providerName)] is a client object, hence truthy. *)
Definition isRegistered (b : ToolBroker) (providerName : string) : bool :=
  bool_decide (providerName ∈ providers b).

(** [health && !health.healthy && health.consecutiveFailures > 3] *)
Definition circuitOpen (b : ToolBroker) (providerName : string) : option nat :=
  match healthStatus b !! providerName with
  | Some h =>
      if negb (healthy h) && (3 <? consecutiveFailures h)%nat
      then Some (consecutiveFailures h) else None
  | None => None
  end.

Definition Outcome : Type := Result string * ToolBroker * Trace.

(** [callProvider]. The recursive call of the [catch] block re-enters the
    method, so every guard is evaluated again; it terminates because the
    stored attempt counter has grown towards [maxRetries]. *)
Equations callProvider (net : Net) (options : Options)
    (providerName operation : string) (b : ToolBroker) (tr : Trace) : Outcome
    by wf (maxRetriesOf options - currentAttemptOf b providerName operation)%nat lt :=
callProvider net options providerName operation b tr
  with isRegistered b providerName := {
  | false =>
      (Threw (ProviderNotAvailable providerName), b,
       EvInvoke providerName operation :: tr)
  | true with circuitOpen b providerName := {
    | Some failures =>
        (Threw (ProviderUnhealthy providerName failures), b,
         EvInvoke providerName operation :: tr)
    | None
      with le_dec (maxRetriesOf options)
                  (currentAttemptOf b providerName operation) := {
      | left _ =>
          (Threw (MaxRetriesExceeded providerName operation), b,
           EvInvoke providerName operation :: tr)
      | right _
        with dispatch net (EvInvoke providerName operation :: tr)
                      providerName operation := {
        | (Returned result, sent) =>
            (Returned result,
             clearRetry b (retryKey providerName operation),
             EvAttempt providerName operation sent
               :: EvInvoke providerName operation :: tr)
        | (Threw e, sent)
          with lt_dec (S (currentAttemptOf b providerName operation))
                      (maxRetriesOf options) := {
          | left Hlt =>
              callProvider net options providerName operation
                (setRetry b (retryKey providerName operation)
                   (S (currentAttemptOf b providerName operation)))
                (EvDelay (2 ^ Z.of_nat (currentAttemptOf b providerName operation)
                          * 1000)
                   :: EvAttempt providerName operation sent
                   :: EvInvoke providerName operation :: tr)
          | right _ =>
              (Threw e,
               setRetry b (retryKey providerName operation)
                 (S (currentAttemptOf b providerName operation)),
               EvAttempt providerName operation sent
                 :: EvInvoke providerName operation :: tr)
          } } } } }.
Next Obligation.
  intros. unfold currentAttemptOf at 1, setRetry; simpl.
  rewrite lookup_insert_eq. lia.
Qed.

(** [callWithFallback]: the [for] loop over the chain. A failure is logged
    and the loop continues; nothing of the caught error is kept. *)
Fixpoint tryChain (net : Net) (options : Options) (service operation : string)
    (chain : list string) (b : ToolBroker) (tr : Trace) : Outcome :=
  match chain with
  | [] => (Threw (AllProvidersFailed service), b, tr)
  | providerName :: rest =>
      match callProvider net options providerName operation b tr with
      | (Returned result, b', tr') => (Returned result, b', tr')
      | (Threw _, b', tr') => tryChain net options service operation rest b' tr'
      end
  end.

(** [this.fallbacks.get(service) || [service]]; an empty array is truthy. *)
Definition fallbackChainOf (b : ToolBroker) (service : string) : list string :=
  match fallbacks b !! service with
  | Some chain => chain
  | None => [service]
  end.

Definition callWithFallback (net : Net) (options : Options)
    (service operation : string) (b : ToolBroker) (tr : Trace) : Outcome :=
  tryChain net options service operation (fallbackChainOf b service) b tr.

(** The states the broker can be in. [initializeProviders] registers the
    providers one after the other and installs the fallback chains last;
    since it awaits in between, probes and calls may find the registry at
    any of these stages, and a call may fall between two probes of one
    sweep. *)
Inductive reachable : ToolBroker -> Prop :=
| reach_new :
    reachable newBroker
| reach_register (name : string) (b : ToolBroker) :
    reachable b -> reachable (register b name)
| reach_fallbacks (b : ToolBroker) :
    reachable b -> reachable (withFallbacks b)
| reach_probe (world : string -> Probe) (name : string) (b : ToolBroker) :
    reachable b -> name ∈ providers b -> reachable (checkOne world b name)
| reach_sweep (world : string -> Probe) (b : ToolBroker) :
    reachable b -> reachable (performHealthChecks world b)
| reach_call (net : Net) (options : Options) (p op : string)
    (b : ToolBroker) (tr : Trace) :
    reachable b -> reachable (callProvider net options p op b tr).1.2
| reach_fallback (net : Net) (options : Options) (service op : string)
    (b : ToolBroker) (tr : Trace) :
    reachable b -> reachable (callWithFallback net options service op b tr).1.2.

(** Observations on traces. *)
Definition isAttempt (e : Event) : bool :=
  match e with EvAttempt _ _ _ => true | _ => false end.

Definition isRequest (e : Event) : bool :=
  match e with EvAttempt _ _ sent => sent | _ => false end.

Definition attemptsIn (tr : Trace) : nat := length (List.filter isAttempt tr).
Definition requestsIn (tr : Trace) : nat := length (List.filter isRequest tr).

(** ** The intelligence router *)

Record QoSTier : Type := mkTier {
  name : string;
  maxTokens : Z;
  temperature : float;
  model : string;
  timeoutMs : Z;
  priority : Z;
  costMultiplier : float;
  description : string
}.

(** [initQoSTiers] *)
Definition realtime : QoSTier :=
  {| name := "realtime"; maxTokens := 512; temperature := 0.3;
     model := "gpt-3.5-turbo"; timeoutMs := 800; priority := 1;
     costMultiplier := 1.5;
     description := "PTT voice & calls - ultra fast" |}.

Definition interactive : QoSTier :=
  {| name := "interactive"; maxTokens := 1024; temperature := 0.7;
     model := "gpt-4"; timeoutMs := 3000; priority := 2;
     costMultiplier := 1.0;
     description := "chat & light tools - balanced" |}.

Definition batch : QoSTier :=
  {| name := "batch"; maxTokens := 4096; temperature := 0.5;
     model := "gpt-4"; timeoutMs := 15000; priority := 3;
     costMultiplier := 0.7;
     description := "research/long tasks - thorough" |}.

(** The object the classifier answers with. The last three fields are the
    ones [classifyIntent] adds; the fallback intent does not have them. *)
Record Intent : Type := mkIntent {
  category : string;
  confidence : float;
  complexity : string;
  urgency : string;
  requiresTools : bool;
  estimatedTokens : Z;
  hasContext : option bool;
  isFollowUp : option bool;
  userPreferences : option string
}.

Record Context : Type := mkContext {
  isVoice : bool;
  isCall : bool;
  conversationId : option string;
  previousMessage : option string;
  contextPreferences : option string
}.

(** [!!x] for an optional string: absent and empty are both falsy. *)
Definition truthy (x : option string) : bool :=
  match x with
  | Some s => negb (String.eqb s "")
  | None => false
  end.

(** [selectQoSTier] *)
Definition selectQoSTier (intent : Intent) (context : Context) : QoSTier :=
  if isVoice context || isCall context then realtime
  else if String.eqb (urgency intent) "high" then interactive
  else if String.eqb (complexity intent) "complex"
          && String.eqb (category intent) "research" then batch
  else interactive.

(** *** Cost sentinel *)

Record CostTracker : Type := mkTracker {
  daily : float;
  monthly : float;
  requests : Z;
  tokens : Z
}.

Definition freshTracker : CostTracker :=
  {| daily := 0; monthly := 0; requests := 0; tokens := 0 |}.

(** [x || d] on numbers: [NaN], [0] and [-0] are falsy. *)
Definition orElse (x d : float) : float :=
  if PrimFloat.is_nan x || PrimFloat.is_zero x then d else x.

(** [baseCost[qosTier.model] || baseCost['gpt-3.5-turbo']] *)
Definition modelCostOf (m : string) : float :=
  if String.eqb m "gpt-3.5-turbo" then 0.0015%float
  else if String.eqb m "gpt-4" then 0.03%float
  else 0.0015%float.

(** [Math.ceil(message.length / 3)]. The quotient of a length by three is
    either whole or at least a third away from the next whole number, far
    more than rounding can move it, so the ceiling is the integer one. *)
Definition estimatedTokensOf (message : string) : float :=
  PrimFloat.of_uint63 (Uint63.of_Z (Z.of_nat ((String.length message + 2) / 3))).

(** [estimateRequestCost] *)
Definition estimateRequestCost (qosTier : QoSTier) (message : string) : float :=
  (estimatedTokensOf message / 1000 * modelCostOf (model qosTier)
   * costMultiplier qosTier)%float.

(** The object [checkCostSentinel] returns; [allowed] tells the two shapes
    apart. The [reason] text is formatted from the three numbers that
    [Denied] carries. *)
Inductive CostCheck : Type :=
| Denied (currentSpend estimatedCost dailyBudget : float)
| Allowed (estimatedCost remainingBudget : float).

Definition allowed (c : CostCheck) : bool :=
  match c with Allowed _ _ => true | Denied _ _ _ => false end.

(** [checkCostSentinel]; [envBudget] is
    [parseFloat(process.env.DAILY_BUDGET_USD)], [NaN] when it is not set. *)
Definition checkCostSentinel (envBudget : float) (qosTier : QoSTier)
    (message : string) (t : CostTracker) : CostCheck * CostTracker :=
  let dailyBudget := orElse envBudget 10.0%float in
  let estimatedCost := estimateRequestCost qosTier message in
  if (dailyBudget <? daily t + estimatedCost)%float then
    (Denied (daily t) estimatedCost dailyBudget, t)
  else
    let t' := {| daily := (daily t + estimatedCost)%float;
                 monthly := monthly t;
                 requests := requests t + 1;
                 tokens := tokens t |} in
    (Allowed estimatedCost (dailyBudget - daily t')%float, t').

(** [resetDailyCosts] *)
Definition resetDailyCosts (t : CostTracker) : CostTracker :=
  {| daily := 0; monthly := monthly t; requests := 0; tokens := tokens t |}.

(** *** Memory shaping *)

Record MemoryItem : Type := mkItem { content : string; timestamp : Z }.

Record Summary : Type := mkSummary {
  summary : string;
  summarisedAt : Z;
  accessCount : nat
}.

Record Pin : Type := mkPin { pinned : string; pinnedAt : Z }.

Inductive MemoryType : Type := shortTermT | midTermT | longTermT.

(** [shortTerm] is read in insertion order, so it is kept as the list of
    its entries, oldest insertion first, with no key twice. *)
Record MemoryShaping : Type := mkMemory {
  shortTerm : list (string * MemoryItem);
  midTerm : gmap string Summary;
  longTerm : gmap string MemoryItem;
  pins : list Pin
}.

(** [initMemoryShaping] *)
Definition initMemoryShaping : MemoryShaping :=
  {| shortTerm := []; midTerm := ∅; longTerm := ∅; pins := [] |}.

Definition decay (type : MemoryType) : Z :=
  match type with
  | shortTermT => 3600000
  | midTermT => 86400000
  | longTermT => 604800000
  end.

(** [Map.prototype.set] on the entry list: an existing key keeps its place. *)
Fixpoint entriesSet {V : Type} (key : string) (v : V) (l : list (string * V))
  : list (string * V) :=
  match l with
  | [] => [(key, v)]
  | (k, w) :: rest =>
      if String.eqb k key then (k, v) :: rest
      else (k, w) :: entriesSet key v rest
  end.

(** [now - value.timestamp > maxAge] *)
Definition expired (maxAge now stamp : Z) : bool := (maxAge <? now - stamp)%Z.

(** [cleanupMemory] *)
Definition cleanupMemory (type : MemoryType) (now : Z) (m : MemoryShaping)
  : MemoryShaping :=
  match type with
  | shortTermT =>
      {| shortTerm :=
           List.filter
             (fun kv => negb (expired (decay shortTermT) now (timestamp kv.2)))
             (shortTerm m);
         midTerm := midTerm m; longTerm := longTerm m; pins := pins m |}
  | midTermT =>
      {| shortTerm := shortTerm m;
         midTerm :=
           filter (fun kv => expired (decay midTermT) now (summarisedAt kv.2) = false)
                  (midTerm m);
         longTerm := longTerm m; pins := pins m |}
  | longTermT =>
      {| shortTerm := shortTerm m; midTerm := midTerm m;
         longTerm :=
           filter (fun kv => expired (decay longTermT) now (timestamp kv.2) = false)
                  (longTerm m);
         pins := pins m |}
  end.

(** [storeShortTermMemory]; the clock is read once for the stamp and once
    more inside [cleanupMemory]. *)
Definition storeShortTermMemory (key value : string) (now sweptAt : Z)
    (m : MemoryShaping) : MemoryShaping :=
  cleanupMemory shortTermT sweptAt
    {| shortTerm :=
         entriesSet key {| content := value; timestamp := now |} (shortTerm m);
       midTerm := midTerm m; longTerm := longTerm m; pins := pins m |}.

(** [storeMidTermMemory] *)
Definition storeMidTermMemory (cat text : string) (now : Z) (m : MemoryShaping)
  : MemoryShaping :=
  {| shortTerm := shortTerm m;
     midTerm :=
       <[cat := {| summary := text; summarisedAt := now;
                   accessCount :=
                     match midTerm m !! cat with
                     | Some s => accessCount s
                     | None => 0
                     end + 1 |}]> (midTerm m);
     longTerm := longTerm m; pins := pins m |}.

(** [pinToMemory]: every call adds a new object, so the set never merges
    two pins. *)
Definition pinToMemory (item : string) (now : Z) (m : MemoryShaping)
  : MemoryShaping :=
  {| shortTerm := shortTerm m; midTerm := midTerm m; longTerm := longTerm m;
     pins := pins m ++ [{| pinned := item; pinnedAt := now |}] |}.

Record MemoryContext : Type := mkMemoryContext {
  ctxShortTerm : list MemoryItem;
  ctxMidTerm : list Summary;
  ctxLongTerm : list MemoryItem;
  ctxPins : list Pin
}.

(** [entries.slice(-10)] *)
Definition lastTen {A : Type} (l : list A) : list A :=
  skipn (length l - 10) l.

(** [assembleMemoryContext]. The vector search it announces only writes to
    the log, so the long-term part stays empty. *)
Definition assembleMemoryContext (message : string) (intent : Intent)
    (m : MemoryShaping) : MemoryContext :=
  {| ctxShortTerm := List.map snd (lastTen (shortTerm m));
     ctxMidTerm :=
       if String.eqb (category intent) "" then []
       else match midTerm m !! category intent with
            | Some projectContext => [projectContext]
            | None => []
            end;
     ctxLongTerm := [];
     ctxPins := pins m |}.

(** *** Intent classification *)

Record CacheEntry : Type := mkEntry { cachedIntent : Intent; cachedAt : Z }.

Record Router : Type := mkRouter {
  toolBroker : ToolBroker;
  intentCache : gmap string CacheEntry;
  memoryShaping : MemoryShaping;
  costTracker : CostTracker
}.

(** [getFallbackIntent] *)
Definition getFallbackIntent (message : string) : Intent :=
  {| category := "general"; confidence := 0.5; complexity := "moderate";
     urgency := "medium"; requiresTools := false; estimatedTokens := 500;
     hasContext := None; isFollowUp := None; userPreferences := None |}.

(** The three assignments that follow [JSON.parse]. *)
Definition enhance (intent : Intent) (context : Context) : Intent :=
  {| category := category intent; confidence := confidence intent;
     complexity := complexity intent; urgency := urgency intent;
     requiresTools := requiresTools intent;
     estimatedTokens := estimatedTokens intent;
     hasContext := Some (truthy (conversationId context));
     isFollowUp := Some (truthy (previousMessage context));
     userPreferences :=
       Some (if truthy (contextPreferences context)
             then default "" (contextPreferences context) else "{}") |}.

(** [cached && (Date.now() - cached.timestamp < 300000)] *)
Definition cacheHit (cached : option CacheEntry) (now : Z) : option Intent :=
  match cached with
  | Some entry =>
      if (now - cachedAt entry <? 300000)%Z then Some (cachedIntent entry) else None
  | None => None
  end.

Definition withBroker (r : Router) (b : ToolBroker) : Router :=
  {| toolBroker := b; intentCache := intentCache r;
     memoryShaping := memoryShaping r; costTracker := costTracker r |}.

Section Classifier.

(** The first eight hexadecimal digits of the MD5 digest, and the reading
    of [classification.choices[0].message.content] by [JSON.parse]
    ([None] when either throws); both come from the platform. *)
Variable hashMessage : string -> string.
Variable parseIntent : string -> option Intent.

(** [classifyIntent]; [now] is the clock when the cache is consulted and
    [storedAt] the clock when a new entry is written. *)
Definition classifyIntent (net : Net) (message : string) (context : Context)
    (now storedAt : Z) (r : Router) (tr : Trace) : Intent * Router * Trace :=
  let cacheKey := "intent_" +:+ hashMessage message in
  match cacheHit (intentCache r !! cacheKey) now with
  | Some intent => (intent, r, tr)
  | None =>
      match callProvider net defaultOptions "openai" "chat" (toolBroker r) tr with
      | (Returned payload, b', tr') =>
          match parseIntent payload with
          | Some parsed =>
              let intent := enhance parsed context in
              (intent,
               {| toolBroker := b';
                  intentCache :=
                    <[cacheKey := {| cachedIntent := intent;
                                     cachedAt := storedAt |}]> (intentCache r);
                  memoryShaping := memoryShaping r;
                  costTracker := costTracker r |},
               tr')
          | None => (getFallbackIntent message, withBroker r b', tr')
          end
      | (Threw _, b', tr') => (getFallbackIntent message, withBroker r b', tr')
      end
  end.

End Classifier.

(** The router as its constructor leaves it. *)
Definition initialRouter (b : ToolBroker) : Router :=
  {| toolBroker := b; intentCache := ∅;
     memoryShaping := initMemoryShaping; costTracker := freshTracker |}.

(** ** More of the broker *)

(** The providers [initializeProviders] can register, in the order in which
    it tries them. *)
Definition knownProviders : list string :=
  ["openai"; "elevenlabs"; "twilio"; "pinecone"; "supabase"; "telegram"; "brave"].

(** [initializeProviders]; [configured] tells for which providers the
    environment holds the credentials and the client could be built. *)
Definition initializeProviders (configured : string -> bool) : ToolBroker :=
  initialBroker (List.filter configured knownProviders).

(** [getProviderList] *)
Definition getProviderList (b : ToolBroker) : list string := providers b.

Record HealthReport : Type := mkReport {
  reported : Health;
  available : bool
}.

(** [getHealthStatus] *)
Definition getHealthStatus (b : ToolBroker) : gmap string HealthReport :=
  map_imap
    (fun providerName health =>
       Some {| reported := health; available := isRegistered b providerName |})
    (healthStatus b).

(** The operations each [call...] method has a [case] for. *)
Definition operationsOf (providerName : string) : list string :=
  if bool_decide (providerName = "openai") then ["chat"; "transcribe"]
  else if bool_decide (providerName = "elevenlabs") then ["synthesize"; "voices"]
  else if bool_decide (providerName = "twilio") then ["call"; "message"]
  else if bool_decide (providerName = "pinecone") then ["upsert"; "query"]
  else if bool_decide (providerName = "supabase")
       then ["insert"; "select"; "update"; "delete"]
  else if bool_decide (providerName = "telegram") then ["sendMessage"; "sendPhoto"]
  else if bool_decide (providerName = "brave") then ["search"]
  else [].

Definition supported (providerName operation : string) : bool :=
  oneOf operation (operationsOf providerName).

(** The providers for which [performHealthChecks] awaits a request. *)
Definition probed (providerName : string) : bool :=
  oneOf providerName ["openai"; "twilio"; "supabase"; "brave"].

(** Several health sweeps in a row, each in its own world. *)
Definition sweeps (worlds : list (string -> Probe)) (b : ToolBroker) : ToolBroker :=
  fold_left (fun b' world => performHealthChecks world b') worlds b.

(** The time spent waiting in backoff, in milliseconds. *)
Fixpoint delayIn (tr : Trace) : Z :=
  match tr with
  | [] => 0
  | EvDelay ms :: rest => ms + delayIn rest
  | _ :: rest => delayIn rest
  end.

(** No dash occurs in the string. *)
Fixpoint noDash (s : string) : bool :=
  match s with
  | EmptyString => true
  | String c rest => negb (Ascii.eqb c (Ascii.ascii_of_nat 45)) && noDash rest
  end.

(** ** Calls that overlap *)

(** [callProvider] is an [async] method: it is suspended while it awaits
    the provider's answer and while it waits in backoff, and other tasks of
    the process (other calls, health sweeps) run meanwhile on the same
    broker. [Others] lists what they do to the broker, one entry for each
    suspension of the call in turn; once the list is used up the call runs
    undisturbed. *)
Definition Others : Type := list (ToolBroker -> ToolBroker).

Definition meanwhile (others : Others) (b : ToolBroker) : ToolBroker * Others :=
  match others with
  | [] => (b, [])
  | other :: rest => (other b, rest)
  end.

(** The call suspends at [await this.call...(...)] for the seven providers
    of the [switch]; the [default] case throws without suspending. *)
Definition duringRequest (others : Others) (b : ToolBroker)
    (providerName : string) : ToolBroker * Others :=
  if bool_decide (providerName ∈ knownProviders) then meanwhile others b
  else (b, others).

(** The [catch] block up to the end of [await this.delay(delay)]: the
    counter is set from the count read before the request, then the call is
    suspended again. *)
Definition duringBackoff (others : Others) (b : ToolBroker)
    (providerName operation : string) : ToolBroker * Others :=
  meanwhile (duringRequest others b providerName).2
    (setRetry (duringRequest others b providerName).1
       (retryKey providerName operation)
       (S (currentAttemptOf b providerName operation))).

(** [callProvider] with its suspensions. The guards and the read of the
    counter run without suspension at every entry; the counter is written
    after the request from the count read before it; the recursive call
    re-reads the broker as the others have left it. *)
Equations callProviderAmid (net : Net) (options : Options)
    (providerName operation : string) (others : Others)
    (b : ToolBroker) (tr : Trace) : Outcome
    by wf (length others * S (maxRetriesOf options)
           + (maxRetriesOf options
              - currentAttemptOf b providerName operation))%nat lt :=
callProviderAmid net options providerName operation others b tr
  with isRegistered b providerName := {
  | false =>
      (Threw (ProviderNotAvailable providerName), b,
       EvInvoke providerName operation :: tr)
  | true with circuitOpen b providerName := {
    | Some failures =>
        (Threw (ProviderUnhealthy providerName failures), b,
         EvInvoke providerName operation :: tr)
    | None
      with le_dec (maxRetriesOf options)
                  (currentAttemptOf b providerName operation) := {
      | left _ =>
          (Threw (MaxRetriesExceeded providerName operation), b,
           EvInvoke providerName operation :: tr)
      | right _
        with dispatch net (EvInvoke providerName operation :: tr)
                      providerName operation := {
        | (Returned result, sent) =>
            (Returned result,
             clearRetry (duringRequest others b providerName).1
               (retryKey providerName operation),
             EvAttempt providerName operation sent
               :: EvInvoke providerName operation :: tr)
        | (Threw e, sent)
          with lt_dec (S (currentAttemptOf b providerName operation))
                      (maxRetriesOf options) := {
          | left Hlt =>
              callProviderAmid net options providerName operation
                (duringBackoff others b providerName operation).2
                (duringBackoff others b providerName operation).1
                (EvDelay (2 ^ Z.of_nat (currentAttemptOf b providerName operation)
                          * 1000)
                   :: EvAttempt providerName operation sent
                   :: EvInvoke providerName operation :: tr)
          | right _ =>
              (Threw e,
               setRetry (duringRequest others b providerName).1
                 (retryKey providerName operation)
                 (S (currentAttemptOf b providerName operation)),
               EvAttempt providerName operation sent
                 :: EvInvoke providerName operation :: tr)
          } } } } }.
Next Obligation.
  intros. unfold duringBackoff, duringRequest, meanwhile.
  destruct (bool_decide (providerName ∈ knownProviders));
    destruct others as [|other [|other' rest]]; simpl;
    unfold currentAttemptOf at 1, setRetry; simpl;
    rewrite ?lookup_insert_eq; lia.
Qed.

(** Another task never lowers the counter of the pair. A call for the
    same pair can lower it: when it succeeds it deletes the counter, and
    when it fails it writes back the count it read before its request, plus
    one. *)
Definition neverLowers (p op : string) (other : ToolBroker -> ToolBroker) : Prop :=
  forall b : ToolBroker,
    (currentAttemptOf b p op <= currentAttemptOf (other b) p op)%nat.

(** Another task leaves the pair alone: the provider stays registered or
    not, its circuit open or closed, and the counter of the pair as it is. *)
Definition quiet (p op : string) (other : ToolBroker -> ToolBroker) : Prop :=
  forall b : ToolBroker,
    isRegistered (other b) p = isRegistered b p
    /\ circuitOpen (other b) p = circuitOpen b p
    /\ currentAttemptOf (other b) p op = currentAttemptOf b p op.

(** ** More of the router *)

(** What [agentMap[intent.category]] can be: one of the nine agent names,
    or, for a key that every object inherits, a value that is no string. *)
Inductive AgentRef : Type :=
| Agent (agentId : string)
| Inherited (property : string).

(** The own keys of [agentMap]. *)
Definition agentMap (cat : string) : option string :=
  if String.eqb cat "security" then Some "echo"
  else if String.eqb cat "creative" then Some "rig"
  else if String.eqb cat "research" then Some "scout"
  else if String.eqb cat "learning" then Some "kibo"
  else if String.eqb cat "content" then Some "craft"
  else if String.eqb cat "fashion" then Some "moda"
  else if String.eqb cat "finance" then Some "mint"
  else if String.eqb cat "fitness" then Some "pulse"
  else if String.eqb cat "general" then Some "rika"
  else None.

(** [isAgentAvailable] *)
Definition isAgentAvailable (agentId : string) : bool :=
  oneOf agentId
    ["rika"; "echo"; "rig"; "scout"; "kibo"; "craft"; "moda"; "mint"; "pulse"].

(** [requiresCouncilCheck] *)
Definition requiresCouncilCheck (intent : Intent) (targetAgent : AgentRef) : bool :=
  if String.eqb (urgency intent) "high" && String.eqb (complexity intent) "complex"
  then true
  else if match targetAgent with
          | Agent a => String.eqb a "mint" && (1000 <? estimatedTokens intent)%Z
          | Inherited _ => false
          end
  then true
  else match targetAgent with
       | Agent a => String.eqb a "echo"
       | Inherited _ => false
       end.

(** The object the council answers with, as far as the router reads it. *)
Record Advice : Type := mkAdvice {
  flags : list string;
  recommendation : string;
  grounds : string
}.

(** What [performCouncilCheck] returns: the advice with the time it took
    and whether that was within the budget of 120 ms, or the default
    ([flags: []], [recommendation: 'proceed'], [reason:
    'council_unavailable']) with the time only. *)
Inductive CouncilVerdict : Type :=
| Advised (advice : Advice) (councilTime : Z) (withinBudget : bool)
| CouncilUnavailable (councilTime : Z).

Definition verdictAdvice (v : CouncilVerdict) : Advice :=
  match v with
  | Advised advice _ _ => advice
  | CouncilUnavailable _ =>
      {| flags := []; recommendation := "proceed";
         grounds := "council_unavailable" |}
  end.

(** [{ maxRetries: 1 }] *)
Definition councilOptions : Options := {| maxRetries := Some 1 |}.

Record ErrorResponse : Type := mkErrorResponse {
  responseId : string;
  refusal : CostCheck;
  fallbackAgent : string;
  fallbackTier : QoSTier;
  respondedAt : Z
}.

(** [createErrorResponse], for the one message [route] passes when nothing
    throws: the reason of a denied cost check. *)
Definition createErrorResponse (refused : CostCheck) (routingId : string)
    (now : Z) : ErrorResponse :=
  {| responseId := routingId; refusal := refused; fallbackAgent := "rika";
     fallbackTier := interactive; respondedAt := now |}.

Record RoutingDecision : Type := mkRouting {
  routingId : string;
  routedIntent : Intent;
  targetAgent : AgentRef;
  routedTier : QoSTier;
  memoryContext : MemoryContext;
  councilAdvice : option CouncilVerdict;
  processingTime : Z;
  routedAt : Z
}.

Inductive RouteResult : Type :=
| Routed (decision : RoutingDecision)
| Refused (response : ErrorResponse).

(** The clock readings of one [route]: at its start, when the cache is
    consulted and written, around the council call, and at the end. *)
Record Times : Type := mkTimes {
  startTime : Z;
  consultedAt : Z;
  writtenAt : Z;
  councilStartTime : Z;
  councilEndTime : Z;
  endTime : Z;
  stampTime : Z
}.

Definition withTracker (r : Router) (t : CostTracker) : Router :=
  {| toolBroker := toolBroker r; intentCache := intentCache r;
     memoryShaping := memoryShaping r; costTracker := t |}.

Section Orchestrator.

(** From the platform: the keys every object inherits, the digest, and the
    two readings by [JSON.parse]. *)
Variable inherits : string -> bool.
Variable hashMessage : string -> string.
Variable parseIntent : string -> option Intent.
Variable parseAdvice : string -> option Advice.

(** [agentMap[intent.category] || 'rika'] *)
Definition agentFor (cat : string) : AgentRef :=
  match agentMap cat with
  | Some a => Agent a
  | None => if inherits cat then Inherited cat else Agent "rika"
  end.

(** [selectTargetAgent]; [preferredAgent] is [context.preferredAgent]. *)
Definition selectTargetAgent (intent : Intent) (preferredAgent : option string)
  : AgentRef :=
  let targetAgent := agentFor (category intent) in
  match preferredAgent with
  | Some a =>
      if truthy preferredAgent && isAgentAvailable a then Agent a else targetAgent
  | None => targetAgent
  end.

(** [performCouncilCheck]; the clock is read at the start and once more on
    either way out. *)
Definition performCouncilCheck (net : Net) (message : string) (intent : Intent)
    (target : AgentRef) (started finished : Z) (b : ToolBroker) (tr : Trace)
  : CouncilVerdict * ToolBroker * Trace :=
  match callProvider net councilOptions "openai" "chat" b tr with
  | (Returned payload, b', tr') =>
      match parseAdvice payload with
      | Some advice =>
          let councilTime := (finished - started)%Z in
          (Advised advice councilTime (councilTime <=? 120)%Z, b', tr')
      | None => (CouncilUnavailable (finished - started), b', tr')
      end
  | (Threw _, b', tr') => (CouncilUnavailable (finished - started), b', tr')
  end.

(** [route], on a classification read as the [Intent] record: its
    category is a string, none of the steps throws and the [catch] of the
    method is not entered. A parsed category that is an object without a
    usable [toString] and [valueOf] makes the lookup in [selectTargetAgent]
    throw, after the ledger was charged; the [catch] then answers with an
    error response. That path is not part of this embedding. *)
Definition route (net : Net) (envBudget : float) (uuid : string) (at_ : Times)
    (message : string) (context : Context) (preferredAgent : option string)
    (r : Router) (tr : Trace) : RouteResult * Router * Trace :=
  let '(intent, r1, tr1) :=
    classifyIntent hashMessage parseIntent net message context
      (consultedAt at_) (writtenAt at_) r tr in
  let qosTier := selectQoSTier intent context in
  let memory := assembleMemoryContext message intent (memoryShaping r1) in
  let '(costCheck, ledger) :=
    checkCostSentinel envBudget qosTier message (costTracker r1) in
  let r2 := withTracker r1 ledger in
  if negb (allowed costCheck) then
    (Refused (createErrorResponse costCheck uuid (stampTime at_)), r2, tr1)
  else
    let target := selectTargetAgent intent preferredAgent in
    let '(advice, b3, tr3) :=
      if requiresCouncilCheck intent target then
        let '(verdict, b', tr') :=
          performCouncilCheck net message intent target
            (councilStartTime at_) (councilEndTime at_) (toolBroker r2) tr1 in
        (Some verdict, b', tr')
      else (None, toolBroker r2, tr1) in
    (Routed {| routingId := uuid;
               routedIntent := intent;
               targetAgent := target;
               routedTier := qosTier;
               memoryContext := memory;
               councilAdvice := advice;
               processingTime := endTime at_ - startTime at_;
               routedAt := stampTime at_ |},
     withBroker r2 b3, tr3).

End Orchestrator.

(** What the conversation handling code and the scheduler do to the memory. *)
Inductive MemoryOp : Type :=
| OpStoreShort (key value : string) (now sweptAt : Z)
| OpStoreMid (cat text : string) (now : Z)
| OpPin (item : string) (now : Z)
| OpCleanup (type : MemoryType) (now : Z).

Definition applyOp (m : MemoryShaping) (op : MemoryOp) : MemoryShaping :=
  match op with
  | OpStoreShort key value now sweptAt =>
      storeShortTermMemory key value now sweptAt m
  | OpStoreMid cat text now => storeMidTermMemory cat text now m
  | OpPin item now => pinToMemory item now m
  | OpCleanup type now => cleanupMemory type now m
  end.

Definition applyOps (ops : list MemoryOp) (m : MemoryShaping) : MemoryShaping :=
  fold_left applyOp ops m.

(** The router's part of [performMemoryCleanup], the hourly job of the
    server: both sweeps, each reading the clock. *)
Definition performMemoryCleanup (now later : Z) (m : MemoryShaping)
  : MemoryShaping :=
  cleanupMemory midTermT later (cleanupMemory shortTermT now m).

(** ** Scenarios

    Concrete worlds and states on which the properties below are exercised. *)

(** Every provider answers every probe with a refused connection. *)
Definition outage : string -> Probe :=
  fun _ => {| reply := ProbeThrew "ECONNREFUSED"; elapsed := 0; checkedAt := 0 |}.

Definition answering (payload : string) : Net := fun _ _ _ => NetOk payload.
Definition failing (msg : string) : Net := fun _ _ _ => NetErr msg.

Definition afterFourFailedSweeps : ToolBroker :=
  performHealthChecks outage
    (performHealthChecks outage
       (performHealthChecks outage
          (performHealthChecks outage (initialBroker ["openai"])))).

(** The provider fails twice, then answers. *)
Definition flaky : Net :=
  fun tr _ _ => if (attemptsIn tr <? 2)%nat then NetErr "timeout" else NetOk "pong".

(** An urgent piece of complex research, asked by voice. *)
Definition urgentResearch : Intent :=
  {| category := "research"; confidence := 0.9; complexity := "complex";
     urgency := "high"; requiresTools := true; estimatedTokens := 2000;
     hasContext := Some false; isFollowUp := Some false;
     userPreferences := Some "{}" |}.

Definition voiceTurn : Context :=
  {| isVoice := true; isCall := false; conversationId := None;
     previousMessage := None; contextPreferences := None |}.

Definition spentTracker : CostTracker :=
  {| daily := 10; monthly := 10; requests := 4; tokens := 0 |}.

Definition spent (amount : float) (count : Z) : CostTracker :=
  {| daily := amount; monthly := 0; requests := count; tokens := 0 |}.

Fixpoint replicate (n : nat) (c : Ascii.ascii) : string :=
  match n with
  | O => EmptyString
  | S n' => String c (replicate n' c)
  end.

(** A message of 300000 characters: 100000 estimated tokens, which cost
    3 at the price of the interactive tier. *)
Definition longMessage : string :=
  replicate (N.to_nat 300000) (Ascii.ascii_of_nat 120).

(** A reply the router can read, and the reading of it. *)
Definition sampleReply : string :=
  "{category: finance, confidence: 0.9, complexity: moderate, urgency: high}".

Definition sampleIntent : Intent :=
  {| category := "finance"; confidence := 0.9; complexity := "moderate";
     urgency := "high"; requiresTools := false; estimatedTokens := 1200;
     hasContext := None; isFollowUp := None; userPreferences := None |}.

Definition readSample (payload : string) : option Intent :=
  if String.eqb payload sampleReply then Some sampleIntent else None.

Definition plainChat : Context :=
  {| isVoice := false; isCall := false; conversationId := None;
     previousMessage := None; contextPreferences := None |}.

Definition oneTurn : MemoryShaping :=
  storeShortTermMemory "turn-1" "hello" 0 0 initMemoryShaping.

(** Every provider answers every probe, and passes its test. *)
Definition recovered : string -> Probe :=
  fun _ => {| reply := ProbeAnswer true; elapsed := 40; checkedAt := 0 |}.

(** Three sweeps during an outage, and the broker after [openai] has failed
    a chat call three times. *)
Definition afterThreeFailedSweeps : ToolBroker :=
  performHealthChecks outage
    (performHealthChecks outage
       (performHealthChecks outage (initialBroker ["openai"]))).

Definition afterFailedChat : ToolBroker :=
  (callProvider (failing "boom") defaultOptions "openai" "chat"
     (initialBroker ["openai"]) []).1.2.

(** The own property names of [Object.prototype]. *)
Definition inheritedKey (key : string) : bool :=
  oneOf key
    ["constructor"; "__defineGetter__"; "__defineSetter__"; "hasOwnProperty";
     "__lookupGetter__"; "__lookupSetter__"; "isPrototypeOf";
     "propertyIsEnumerable"; "toString"; "valueOf"; "__proto__";
     "toLocaleString"].

Definition securityIntent : Intent :=
  {| category := "security"; confidence := 0.8; complexity := "simple";
     urgency := "low"; requiresTools := false; estimatedTokens := 100;
     hasContext := None; isFollowUp := None; userPreferences := None |}.

Definition readNothing : string -> option Advice := fun _ => None.

Definition someTimes : Times :=
  {| startTime := 0; consultedAt := 1; writtenAt := 5; councilStartTime := 6;
     councilEndTime := 9; endTime := 10; stampTime := 10 |}.

(** A router whose ledger has reached the default budget. *)
Definition spentRouter : Router :=
  {| toolBroker := initialBroker ["openai"]; intentCache := ∅;
     memoryShaping := initMemoryShaping; costTracker := spentTracker |}.

(** What other tasks do to the broker while a call is suspended. Nothing: *)
Definition nothingElse : ToolBroker -> ToolBroker := fun b => b.

(** another [chat] call on [openai], which is answered and returns; *)
Definition anotherChatSucceeds : ToolBroker -> ToolBroker :=
  fun b =>
    (callProvider (answering "pong") defaultOptions "openai" "chat" b []).1.2.

(** another [chat] call on [openai], which is not answered; *)
Definition anotherChatFails : ToolBroker -> ToolBroker :=
  fun b =>
    (callProvider (failing "busy") defaultOptions "openai" "chat" b []).1.2.

(** a [transcribe] call on [openai], which is answered and returns. *)
Definition anotherTranscription : ToolBroker -> ToolBroker :=
  fun b =>
    (callProvider (answering "text") defaultOptions "openai" "transcribe" b []).1.2.

(** * Properties of the tool broker *)

(** [callProvider] read as the method body it embeds. *)
Lemma callProvider_body (net : Net) (options : Options) (p op : string)
    (b : ToolBroker) (tr : Trace) :
  callProvider net options p op b tr =
  let tr0 := EvInvoke p op :: tr in
  let currentAttempt := currentAttemptOf b p op in
  if isRegistered b p then
    match circuitOpen b p with
    | Some failures => (Threw (ProviderUnhealthy p failures), b, tr0)
    | None =>
        if (maxRetriesOf options <=? currentAttempt)%nat
        then (Threw (MaxRetriesExceeded p op), b, tr0)
        else
          match dispatch net tr0 p op with
          | (Returned result, sent) =>
              (Returned result, clearRetry b (retryKey p op),
               EvAttempt p op sent :: tr0)
          | (Threw e, sent) =>
              let b' := setRetry b (retryKey p op) (S currentAttempt) in
              if (S currentAttempt <? maxRetriesOf options)%nat
              then callProvider net options p op b'
                     (EvDelay (2 ^ Z.of_nat currentAttempt * 1000)
                        :: EvAttempt p op sent :: tr0)
              else (Threw e, b', EvAttempt p op sent :: tr0)
          end
    end
  else (Threw (ProviderNotAvailable p), b, tr0).
Proof.
  simp callProvider. cbn zeta.
  destruct (isRegistered b p); simpl; [|reflexivity].
  destruct (circuitOpen b p); simpl; [reflexivity|].
  destruct (le_dec _ _) as [Hle|Hle]; simpl;
    destruct (Nat.leb_spec (maxRetriesOf options) (currentAttemptOf b p op));
    try lia; [reflexivity|].
  destruct (dispatch _ _ _ _) as [[result|e] sent]; simpl; [reflexivity|].
  destruct (lt_dec _ _) as [Hlt|Hlt]; simpl;
    destruct (Nat.ltb_spec (S (currentAttemptOf b p op)) (maxRetriesOf options));
    try lia; reflexivity.
Qed.

Lemma currentAttemptOf_setRetry (b : ToolBroker) (p op : string) (n : nat) :
  currentAttemptOf (setRetry b (retryKey p op) n) p op = n.
Proof. unfold currentAttemptOf, setRetry; simpl. by rewrite lookup_insert_eq. Qed.

Lemma currentAttemptOf_clearRetry (b : ToolBroker) (p op : string) :
  currentAttemptOf (clearRetry b (retryKey p op)) p op = 0.
Proof. unfold currentAttemptOf, clearRetry; simpl. by rewrite lookup_delete_eq. Qed.

(** *** What a call leaves alone *)

(** The parts of the broker that only the constructor and the health sweep
    write. *)
Definition sameRegistry (b b' : ToolBroker) : Prop :=
  providers b' = providers b
  /\ healthStatus b' = healthStatus b
  /\ fallbacks b' = fallbacks b.

Lemma sameRegistry_refl (b : ToolBroker) : sameRegistry b b.
Proof. by repeat split. Qed.

Lemma sameRegistry_trans (b1 b2 b3 : ToolBroker) :
  sameRegistry b1 b2 -> sameRegistry b2 b3 -> sameRegistry b1 b3.
Proof.
  intros (H1 & H2 & H3) (K1 & K2 & K3).
  repeat split; congruence.
Qed.

Lemma callProvider_sameRegistry (net : Net) (options : Options) (p op : string)
    (b : ToolBroker) (tr : Trace) :
  sameRegistry b (callProvider net options p op b tr).1.2.
Proof.
  funelim (callProvider net options p op b tr); simpl;
    try apply sameRegistry_refl.
  - by repeat split.
  - eapply sameRegistry_trans; [|eassumption]. by repeat split.
  - by repeat split.
Qed.

Lemma tryChain_sameRegistry (net : Net) (options : Options)
    (service op : string) (chain : list string) (b : ToolBroker) (tr : Trace) :
  sameRegistry b (tryChain net options service op chain b tr).1.2.
Proof.
  revert b tr. induction chain as [|p rest IH]; intros b tr; simpl.
  - apply sameRegistry_refl.
  - pose proof (callProvider_sameRegistry net options p op b tr) as Hc.
    destruct (callProvider net options p op b tr) as [[[result|e] b'] tr'];
      simpl in *; [assumption|].
    eapply sameRegistry_trans; [exact Hc | apply IH].
Qed.

Lemma callWithFallback_sameRegistry (net : Net) (options : Options)
    (service op : string) (b : ToolBroker) (tr : Trace) :
  sameRegistry b (callWithFallback net options service op b tr).1.2.
Proof. apply tryChain_sameRegistry. Qed.

(** *** What the health sweep maintains *)

(** Every health record belongs to a registered provider, and a record that
    says healthy has no failure counted. *)
Definition healthSound (b : ToolBroker) : Prop :=
  forall (p : string) (h : Health),
    healthStatus b !! p = Some h ->
    p ∈ providers b /\ (healthy h = true -> consecutiveFailures h = 0).

Lemma checkOne_providers (world : string -> Probe) (b : ToolBroker) (p : string) :
  providers (checkOne world b p) = providers b.
Proof. unfold checkOne. by destruct (probeOutcome _ _). Qed.

Lemma checkOne_sound (world : string -> Probe) (b : ToolBroker) (p : string) :
  p ∈ providers b -> healthSound b -> healthSound (checkOne world b p).
Proof.
  intros Hp Hb q h. rewrite checkOne_providers.
  unfold checkOne.
  destruct (probeOutcome p (reply (world p))) as [isHealthy|msg]; simpl;
    rewrite lookup_insert; case_decide; subst;
    try (intros Hq; by apply Hb);
    intros [= <-]; simpl; split; try done.
  by destruct isHealthy.
Qed.

Lemma sweep_sound (world : string -> Probe) (names : list string) (b : ToolBroker) :
  (forall p, p ∈ names -> p ∈ providers b) ->
  healthSound b -> healthSound (fold_left (checkOne world) names b).
Proof.
  revert b. induction names as [|p rest IH]; intros b Hin Hb; simpl; [done|].
  apply IH.
  - intros q Hq. rewrite checkOne_providers. apply Hin. by right.
  - apply checkOne_sound; [apply Hin; by left | done].
Qed.

Lemma healthSound_same (b b' : ToolBroker) :
  sameRegistry b b' -> healthSound b -> healthSound b'.
Proof.
  intros (Hp & Hh & _) Hb p h. rewrite Hp, Hh. apply Hb.
Qed.

Lemma reachable_sound (b : ToolBroker) : reachable b -> healthSound b.
Proof.
  induction 1 as [|name b _ IH|b _ IH|world name b _ IH Hname|world b _ IH
                 |net options p op b tr _ IH
                 |net options service op b tr _ IH].
  - intros p h. simpl. by rewrite lookup_empty.
  - intros p h Hp. destruct (IH p h Hp) as [Hin Hzero]. split; [|done].
    simpl. case_bool_decide; [done | set_solver].
  - intros p h Hp. by apply IH.
  - by apply checkOne_sound.
  - by apply sweep_sound.
  - eapply healthSound_same; [apply callProvider_sameRegistry | done].
  - eapply healthSound_same; [apply callWithFallback_sameRegistry | done].
Qed.

Lemma registered_reachable (names : list string) (b : ToolBroker) :
  reachable b -> reachable (fold_left register names b).
Proof.
  revert b. induction names as [|name rest IH]; intros b Hb; simpl; [done|].
  by apply IH, reach_register.
Qed.

Lemma initialBroker_reachable (names : list string) :
  reachable (initialBroker names).
Proof. apply reach_fallbacks, registered_reachable, reach_new. Qed.

(** *** Counting attempts *)

Lemma attemptsIn_cons (e : Event) (tr : Trace) :
  attemptsIn (e :: tr) = ((if isAttempt e then 1 else 0) + attemptsIn tr)%nat.
Proof. unfold attemptsIn. simpl. by destruct (isAttempt e). Qed.

Lemma requestsIn_cons (e : Event) (tr : Trace) :
  requestsIn (e :: tr) = ((if isRequest e then 1 else 0) + requestsIn tr)%nat.
Proof. unfold requestsIn. simpl. by destruct (isRequest e). Qed.

Lemma requests_le_attempts (tr : Trace) : (requestsIn tr <= attemptsIn tr)%nat.
Proof.
  induction tr as [|e tr IH]; [done|].
  rewrite attemptsIn_cons, requestsIn_cons.
  destruct e as [| ? ? [|] |]; simpl; lia.
Qed.

(** One call adds to the trace at most as many attempts as the stored
    counter leaves room for. *)
Lemma callProvider_attempts (net : Net) (options : Options) (p op : string)
    (b : ToolBroker) (tr : Trace) :
  (attemptsIn tr <= attemptsIn (callProvider net options p op b tr).2
   /\ attemptsIn (callProvider net options p op b tr).2
      <= attemptsIn tr + (maxRetriesOf options - currentAttemptOf b p op))%nat.
Proof.
  funelim (callProvider net options p op b tr); simpl;
    rewrite ?attemptsIn_cons in *; simpl in *; try lia.
  rewrite currentAttemptOf_setRetry in H. lia.
Qed.

Lemma callProvider_requests (net : Net) (options : Options) (p op : string)
    (b : ToolBroker) (tr : Trace) :
  (requestsIn tr <= requestsIn (callProvider net options p op b tr).2
   /\ requestsIn (callProvider net options p op b tr).2
      <= requestsIn tr + (maxRetriesOf options - currentAttemptOf b p op))%nat.
Proof.
  funelim (callProvider net options p op b tr); simpl;
    rewrite ?requestsIn_cons in *; simpl in *; try lia.
  - destruct sent; lia.
  - rewrite currentAttemptOf_setRetry in H. destruct sent; lia.
  - destruct sent; lia.
Qed.

(** *** The circuit breaker *)

(** C1. On every state the broker can reach, a provider whose health record
    counts more than three consecutive failures is refused by [callProvider]
    with [ProviderUnhealthy]: no attempt is made, no request is sent, and the
    broker, hence the attempt counter of the pair, is left as it was. *)
Theorem unhealthy_provider_is_refused (net : Net) (options : Options)
    (p op : string) (b : ToolBroker) (tr : Trace) (h : Health) :
  reachable b ->
  healthStatus b !! p = Some h ->
  (3 < consecutiveFailures h)%nat ->
  callProvider net options p op b tr
    = (Threw (ProviderUnhealthy p (consecutiveFailures h)), b, EvInvoke p op :: tr)
  /\ requestsIn (callProvider net options p op b tr).2 = requestsIn tr
  /\ attemptsIn (callProvider net options p op b tr).2 = attemptsIn tr
  /\ currentAttemptOf (callProvider net options p op b tr).1.2 p op
     = currentAttemptOf b p op.
Proof.
  intros Hreach Hlook Hmany.
  destruct (reachable_sound b Hreach p h Hlook) as [Hin Hzero].
  assert (Hsick : healthy h = false).
  { destruct (healthy h); [|done]. specialize (Hzero eq_refl). lia. }
  assert (Hcall : callProvider net options p op b tr
                  = (Threw (ProviderUnhealthy p (consecutiveFailures h)), b,
                     EvInvoke p op :: tr)).
  { rewrite callProvider_body. cbn zeta.
    unfold isRegistered. rewrite bool_decide_eq_true_2 by done.
    unfold circuitOpen. rewrite Hlook, Hsick. simpl.
    destruct (Nat.ltb_spec 3 (consecutiveFailures h)); [done | lia]. }
  rewrite Hcall. simpl. rewrite requestsIn_cons, attemptsIn_cons. by simpl.
Qed.

Lemma unhealthy_provider_is_refused_witness :
  callProvider (answering "pong") defaultOptions "openai" "chat"
      afterFourFailedSweeps []
    = (Threw (ProviderUnhealthy "openai" 4), afterFourFailedSweeps,
       [EvInvoke "openai" "chat"]).
Proof.
  refine (proj1 (unhealthy_provider_is_refused (answering "pong") defaultOptions
                   "openai" "chat" afterFourFailedSweeps []
                   {| healthy := false; latency := None; lastCheck := 0;
                      consecutiveFailures := 4;
                      error := Some "ECONNREFUSED" |} _ _ _)).
  - unfold afterFourFailedSweeps. repeat apply reach_sweep.
    apply initialBroker_reachable.
  - vm_compute. reflexivity.
  - simpl. lia.
Defined.

(** *** Health is written by the sweep only *)

(** C4, as the code has it. [callProvider] never writes [healthStatus]:
    whatever the outcome of its attempts, the latency and the failure count
    of the provider stay what the last health sweep recorded. *)
Theorem callProvider_leaves_health (net : Net) (options : Options)
    (p op : string) (b : ToolBroker) (tr : Trace) :
  healthStatus (callProvider net options p op b tr).1.2 = healthStatus b.
Proof. apply callProvider_sameRegistry. Qed.

(** C4, refuted as stated. After one failed sweep the record of [openai]
    counts one failure; a call that succeeds at its first attempt returns,
    and the record still counts one failure and still has no latency. *)
Lemma successful_call_keeps_failure_count :
  let b := performHealthChecks outage (initialBroker ["openai"]) in
  let out := callProvider (answering "pong") defaultOptions "openai" "chat" b [] in
  out.1.1 = Returned "pong"
  /\ out.2 = [EvAttempt "openai" "chat" true; EvInvoke "openai" "chat"]
  /\ healthStatus out.1.2 !! "openai"
     = Some {| healthy := false; latency := None; lastCheck := 0;
               consecutiveFailures := 1; error := Some "ECONNREFUSED" |}.
Proof. vm_compute. repeat split; reflexivity. Qed.

(** *** Calls that overlap *)

Lemma callProviderAmid_body (net : Net) (options : Options) (p op : string)
    (others : Others) (b : ToolBroker) (tr : Trace) :
  callProviderAmid net options p op others b tr =
  let tr0 := EvInvoke p op :: tr in
  let currentAttempt := currentAttemptOf b p op in
  if isRegistered b p then
    match circuitOpen b p with
    | Some failures => (Threw (ProviderUnhealthy p failures), b, tr0)
    | None =>
        if (maxRetriesOf options <=? currentAttempt)%nat
        then (Threw (MaxRetriesExceeded p op), b, tr0)
        else
          match dispatch net tr0 p op with
          | (Returned result, sent) =>
              (Returned result,
               clearRetry (duringRequest others b p).1 (retryKey p op),
               EvAttempt p op sent :: tr0)
          | (Threw e, sent) =>
              if (S currentAttempt <? maxRetriesOf options)%nat
              then callProviderAmid net options p op
                     (duringBackoff others b p op).2
                     (duringBackoff others b p op).1
                     (EvDelay (2 ^ Z.of_nat currentAttempt * 1000)
                        :: EvAttempt p op sent :: tr0)
              else (Threw e,
                    setRetry (duringRequest others b p).1 (retryKey p op)
                      (S currentAttempt),
                    EvAttempt p op sent :: tr0)
          end
    end
  else (Threw (ProviderNotAvailable p), b, tr0).
Proof.
  simp callProviderAmid. cbn zeta.
  destruct (isRegistered b p); simpl; [|reflexivity].
  destruct (circuitOpen b p); simpl; [reflexivity|].
  destruct (le_dec _ _) as [Hle|Hle]; simpl;
    destruct (Nat.leb_spec (maxRetriesOf options) (currentAttemptOf b p op));
    try lia; [reflexivity|].
  destruct (dispatch _ _ _ _) as [[result|e] sent]; simpl; [reflexivity|].
  destruct (lt_dec _ _) as [Hlt|Hlt]; simpl;
    destruct (Nat.ltb_spec (S (currentAttemptOf b p op)) (maxRetriesOf options));
    try lia; reflexivity.
Qed.

Lemma duringRequest_alone (b : ToolBroker) (p : string) :
  duringRequest [] b p = (b, []).
Proof. unfold duringRequest. by case_bool_decide. Qed.

Lemma duringBackoff_alone (b : ToolBroker) (p op : string) :
  duringBackoff [] b p op
  = (setRetry b (retryKey p op) (S (currentAttemptOf b p op)), []).
Proof. unfold duringBackoff. by rewrite duringRequest_alone. Qed.

(** A call that nothing overlaps is the call run in one go. *)
Lemma callProviderAmid_alone (net : Net) (options : Options) (p op : string)
    (b : ToolBroker) (tr : Trace) :
  callProviderAmid net options p op [] b tr = callProvider net options p op b tr.
Proof.
  funelim (callProvider net options p op b tr);
    rewrite callProviderAmid_body; cbn zeta;
    repeat match goal with
      | H : isRegistered _ _ = _ |- _ => rewrite H; clear H
      | H : circuitOpen _ _ = _ |- _ => rewrite H; clear H
      | H : dispatch _ _ _ _ = _ |- _ => rewrite H; clear H
      end;
    try reflexivity;
    destruct (Nat.leb_spec (maxRetriesOf options)
                (currentAttemptOf b providerName operation));
    try reflexivity; try lia;
    destruct (Nat.ltb_spec (S (currentAttemptOf b providerName operation))
                (maxRetriesOf options));
    try lia; rewrite ?duringRequest_alone, ?duringBackoff_alone; simpl;
    done.
Qed.

(** **** What the others may do *)

Lemma quiet_neverLowers (p op : string) (other : ToolBroker -> ToolBroker) :
  quiet p op other -> neverLowers p op other.
Proof. intros H b. destruct (H b) as (_ & _ & ->). done. Qed.

Lemma meanwhile_rest (P : (ToolBroker -> ToolBroker) -> Prop) (others : Others)
    (b : ToolBroker) :
  Forall P others -> Forall P (meanwhile others b).2.
Proof. intros H. destruct H; simpl; [constructor | done]. Qed.

Lemma duringRequest_rest (P : (ToolBroker -> ToolBroker) -> Prop)
    (others : Others) (b : ToolBroker) (p : string) :
  Forall P others -> Forall P (duringRequest others b p).2.
Proof.
  intros H. unfold duringRequest. case_bool_decide; [|done].
  by apply meanwhile_rest.
Qed.

Lemma duringBackoff_rest (P : (ToolBroker -> ToolBroker) -> Prop)
    (others : Others) (b : ToolBroker) (p op : string) :
  Forall P others -> Forall P (duringBackoff others b p op).2.
Proof.
  intros H. unfold duringBackoff. by apply meanwhile_rest, duringRequest_rest.
Qed.

Lemma meanwhile_neverLowers (p op : string) (others : Others) (b : ToolBroker) :
  Forall (neverLowers p op) others ->
  (currentAttemptOf b p op <= currentAttemptOf (meanwhile others b).1 p op)%nat.
Proof. intros H. destruct H as [|other rest Hother _]; simpl; [done | apply Hother]. Qed.

(** After the backoff the counter is at least the count the call has
    written. *)
Lemma duringBackoff_neverLowers (p op : string) (others : Others) (b : ToolBroker) :
  Forall (neverLowers p op) others ->
  (S (currentAttemptOf b p op)
   <= currentAttemptOf (duringBackoff others b p op).1 p op)%nat.
Proof.
  intros H. unfold duringBackoff.
  etransitivity; [|apply meanwhile_neverLowers; by apply duringRequest_rest].
  by rewrite currentAttemptOf_setRetry.
Qed.

Lemma meanwhile_quiet (p op : string) (others : Others) (b : ToolBroker) :
  Forall (quiet p op) others ->
  isRegistered (meanwhile others b).1 p = isRegistered b p
  /\ circuitOpen (meanwhile others b).1 p = circuitOpen b p
  /\ currentAttemptOf (meanwhile others b).1 p op = currentAttemptOf b p op.
Proof. intros H. destruct H as [|other rest Hother _]; simpl; [done | apply Hother]. Qed.

Lemma duringRequest_quiet (p op : string) (others : Others) (b : ToolBroker) :
  Forall (quiet p op) others ->
  isRegistered (duringRequest others b p).1 p = isRegistered b p
  /\ circuitOpen (duringRequest others b p).1 p = circuitOpen b p.
Proof.
  intros H. unfold duringRequest. case_bool_decide; [|done].
  destruct (meanwhile_quiet p op others b H) as (? & ? & _). done.
Qed.

Lemma setRetry_guards (b : ToolBroker) (k : string) (n : nat) (p : string) :
  isRegistered (setRetry b k n) p = isRegistered b p
  /\ circuitOpen (setRetry b k n) p = circuitOpen b p.
Proof. done. Qed.

(** After the backoff of a call that nothing disturbs, the guards read as
    before and the counter is the count the call has written. *)
Lemma duringBackoff_quiet (p op : string) (others : Others) (b : ToolBroker) :
  Forall (quiet p op) others ->
  isRegistered (duringBackoff others b p op).1 p = isRegistered b p
  /\ circuitOpen (duringBackoff others b p op).1 p = circuitOpen b p
  /\ currentAttemptOf (duringBackoff others b p op).1 p op
     = S (currentAttemptOf b p op).
Proof.
  intros H. unfold duringBackoff.
  destruct (meanwhile_quiet p op (duringRequest others b p).2
              (setRetry (duringRequest others b p).1 (retryKey p op)
                 (S (currentAttemptOf b p op))))
    as (Hreg & Hcirc & Hcur); [by apply duringRequest_rest|].
  destruct (duringRequest_quiet p op others b H) as (Hreg' & Hcirc').
  rewrite Hreg, Hcirc, Hcur, currentAttemptOf_setRetry.
  destruct (setRetry_guards (duringRequest others b p).1 (retryKey p op)
              (S (currentAttemptOf b p op)) p) as (-> & ->).
  done.
Qed.

(** **** Attempts, requests and delays of a call that is overlapped *)

Lemma callProviderAmid_attempts (net : Net) (options : Options) (p op : string)
    (others : Others) (b : ToolBroker) (tr : Trace) :
  Forall (neverLowers p op) others ->
  (attemptsIn tr <= attemptsIn (callProviderAmid net options p op others b tr).2
   /\ attemptsIn (callProviderAmid net options p op others b tr).2
      <= attemptsIn tr + (maxRetriesOf options - currentAttemptOf b p op))%nat.
Proof.
  funelim (callProviderAmid net options p op others b tr); intros Hothers; simpl;
    rewrite ?attemptsIn_cons in *; simpl in *; try lia.
  pose proof (duringBackoff_neverLowers _ _ _ b Hothers).
  match goal with IH : Forall _ _ -> _ |- _ =>
    specialize (IH (duringBackoff_rest _ _ b _ _ Hothers)) end.
  lia.
Qed.

Lemma callProviderAmid_requests (net : Net) (options : Options) (p op : string)
    (others : Others) (b : ToolBroker) (tr : Trace) :
  Forall (neverLowers p op) others ->
  (requestsIn tr <= requestsIn (callProviderAmid net options p op others b tr).2
   /\ requestsIn (callProviderAmid net options p op others b tr).2
      <= requestsIn tr + (maxRetriesOf options - currentAttemptOf b p op))%nat.
Proof.
  funelim (callProviderAmid net options p op others b tr); intros Hothers; simpl;
    rewrite ?requestsIn_cons in *; simpl in *; try lia.
  - destruct sent; lia.
  - pose proof (duringBackoff_neverLowers _ _ _ b Hothers).
    match goal with IH : Forall _ _ -> _ |- _ =>
      specialize (IH (duringBackoff_rest _ _ b _ _ Hothers)) end.
    destruct sent; lia.
  - destruct sent; lia.
Qed.

(** Whatever the others do, a call that returns a result has deleted the
    counter of the pair as its last step. *)
Lemma callProviderAmid_success_resets (net : Net) (options : Options)
    (p op : string) (others : Others) (b : ToolBroker) (tr : Trace)
    (result : string) :
  (callProviderAmid net options p op others b tr).1.1 = Returned result ->
  retryAttempts (callProviderAmid net options p op others b tr).1.2
    !! retryKey p op = None.
Proof.
  funelim (callProviderAmid net options p op others b tr); simpl; try done.
  - intros _. apply lookup_delete_eq.
  - match goal with IH : forall r : string, _ |- _ => apply IH end.
Qed.

Lemma callProviderAmid_delay (net : Net) (options : Options) (p op : string)
    (others : Others) (b : ToolBroker) (tr : Trace) :
  Forall (neverLowers p op) others ->
  (delayIn tr <= delayIn (callProviderAmid net options p op others b tr).2
   /\ delayIn (callProviderAmid net options p op others b tr).2
      <= delayIn tr
         + (if (currentAttemptOf b p op <? maxRetriesOf options)%nat
            then 1000 * (2 ^ Z.of_nat (maxRetriesOf options - 1)
                         - 2 ^ Z.of_nat (currentAttemptOf b p op))
            else 0))%Z.
Proof.
  funelim (callProviderAmid net options p op others b tr); intros Hothers; simpl.
  1-3: destruct (Nat.ltb_spec (currentAttemptOf b providerName operation)
                   (maxRetriesOf options)); [|lia];
       assert (2 ^ Z.of_nat (currentAttemptOf b providerName operation)
               <= 2 ^ Z.of_nat (maxRetriesOf options - 1))%Z
         by (apply Z.pow_le_mono_r; lia); lia.
  - destruct (Nat.ltb_spec (currentAttemptOf b providerName operation)
                (maxRetriesOf options)); [|lia].
    assert (2 ^ Z.of_nat (currentAttemptOf b providerName operation)
            <= 2 ^ Z.of_nat (maxRetriesOf options - 1))%Z
      by (apply Z.pow_le_mono_r; lia). lia.
  - pose proof (duringBackoff_neverLowers _ _ _ b Hothers) as Hup.
    match goal with IH : Forall _ _ -> _ |- _ =>
      specialize (IH (duringBackoff_rest _ _ b _ _ Hothers)); simpl in IH end.
    destruct (Nat.ltb_spec (currentAttemptOf b providerName operation)
                (maxRetriesOf options)); [|lia].
    assert (Hpow : (2 * 2 ^ Z.of_nat (currentAttemptOf b providerName operation)
                    <= 2 ^ Z.of_nat (currentAttemptOf
                                       (duringBackoff others b providerName operation).1
                                       providerName operation))%Z).
    { rewrite <- Z.pow_succ_r by lia. apply Z.pow_le_mono_r; lia. }
    assert (0 < 2 ^ Z.of_nat (currentAttemptOf b providerName operation))%Z
      by (apply Z.pow_pos_nonneg; lia).
    assert (2 ^ Z.of_nat (currentAttemptOf b providerName operation)
            <= 2 ^ Z.of_nat (maxRetriesOf options - 1))%Z
      by (apply Z.pow_le_mono_r; lia).
    assert (2 * 2 ^ Z.of_nat (currentAttemptOf b providerName operation)
            <= 2 ^ Z.of_nat (maxRetriesOf options - 1))%Z.
    { rewrite <- Z.pow_succ_r by lia. apply Z.pow_le_mono_r; lia. }
    destruct (Nat.ltb_spec (currentAttemptOf
                              (duringBackoff others b providerName operation).1
                              providerName operation)
                (maxRetriesOf options)); lia.
  - destruct (Nat.ltb_spec (currentAttemptOf b providerName operation)
                (maxRetriesOf options)); [|lia].
    assert (2 ^ Z.of_nat (currentAttemptOf b providerName operation)
            <= 2 ^ Z.of_nat (maxRetriesOf options - 1))%Z
      by (apply Z.pow_le_mono_r; lia). lia.
Qed.

(** A call that adds no attempt to the trace was stopped by a guard. *)
Lemma callProviderAmid_attempt_made (net : Net) (options : Options)
    (p op : string) (others : Others) (b : ToolBroker) (tr : Trace) :
  (attemptsIn tr < attemptsIn (callProviderAmid net options p op others b tr).2)%nat ->
  isRegistered b p = true
  /\ circuitOpen b p = None
  /\ (currentAttemptOf b p op < maxRetriesOf options)%nat.
Proof.
  rewrite callProviderAmid_body. cbn zeta.
  destruct (isRegistered b p); simpl;
    [|rewrite attemptsIn_cons; simpl; lia].
  destruct (circuitOpen b p); simpl;
    [rewrite attemptsIn_cons; simpl; lia|].
  destruct (Nat.leb_spec (maxRetriesOf options) (currentAttemptOf b p op)); simpl;
    [rewrite attemptsIn_cons; simpl; lia|].
  done.
Qed.

(** What a call that passes the guards and throws has done, when nothing
    disturbs the pair meanwhile. *)
Lemma callProviderAmid_exhausted (net : Net) (options : Options)
    (p op : string) (others : Others) (b : ToolBroker) (tr : Trace) :
  forall (e : BrokerError) (b' : ToolBroker) (tr' : Trace),
    Forall (quiet p op) others ->
    callProviderAmid net options p op others b tr = (Threw e, b', tr') ->
    isRegistered b p = true ->
    circuitOpen b p = None ->
    (currentAttemptOf b p op < maxRetriesOf options)%nat ->
    (exists sent hist,
        tr' = EvAttempt p op sent :: hist
        /\ dispatch net hist p op = (Threw e, sent))
    /\ currentAttemptOf b' p op = maxRetriesOf options
    /\ isRegistered b' p = true
    /\ circuitOpen b' p = None
    /\ attemptsIn tr'
       = (attemptsIn tr + (maxRetriesOf options - currentAttemptOf b p op))%nat
    /\ (delayIn tr'
        = delayIn tr
          + 1000 * (2 ^ Z.of_nat (maxRetriesOf options - 1)
                    - 2 ^ Z.of_nat (currentAttemptOf b p op)))%Z.
Proof.
  funelim (callProviderAmid net options p op others b tr);
    intros e' b' tr' Hothers Hout Hreg Hcirc Hroom; try congruence; try lia.
  - destruct (duringBackoff_quiet _ _ _ b Hothers) as (Hreg' & Hcirc' & Hcur').
    match goal with IH : forall e b' tr', _ |- _ =>
      destruct (IH e' b' tr' (duringBackoff_rest _ _ b _ _ Hothers) Hout)
        as (Hlast & Hfull & Hr & Hc & Ha & Hd)
    end.
    { congruence. }
    { congruence. }
    { lia. }
    rewrite Hcur' in Ha, Hd.
    rewrite !attemptsIn_cons in Ha. simpl in Ha, Hd.
    repeat split; try done; [lia|].
    rewrite Hd.
    replace (Z.of_nat (S (currentAttemptOf b providerName operation)))
      with (Z.succ (Z.of_nat (currentAttemptOf b providerName operation))) by lia.
    rewrite Z.pow_succ_r by lia. lia.
  - injection Hout as <- <- <-.
    destruct (duringRequest_quiet _ operation _ b Hothers) as (Hreg' & Hcirc').
    destruct (setRetry_guards (duringRequest others b providerName).1
                (retryKey providerName operation)
                (S (currentAttemptOf b providerName operation)) providerName)
      as (Hr & Hc).
    rewrite currentAttemptOf_setRetry, Hr, Hc, Hreg', Hcirc'.
    rewrite !attemptsIn_cons. simpl.
    repeat split; try done; try lia.
    + eauto.
    + replace (maxRetriesOf options - 1)%nat
        with (currentAttemptOf b providerName operation) by lia.
      lia.
Qed.

(** *** The retry budget *)

(** C6, refuted as stated. A [chat] call on [openai] with the default budget
    of three fails its first attempt and waits in backoff; meanwhile another
    [chat] call on [openai] is answered and deletes the counter of the pair.
    The first call goes on from zero and fails three more times: one
    invocation has made four attempts, and sent four requests. *)
Lemma overlapped_call_exceeds_maxRetries :
  let out := callProviderAmid (failing "boom") defaultOptions "openai" "chat"
               [nothingElse; anotherChatSucceeds] (initialBroker ["openai"]) [] in
  maxRetriesOf defaultOptions = 3
  /\ attemptsIn out.2 = 4
  /\ requestsIn out.2 = 4
  /\ out.1.1 = Threw (CallFailed "boom").
Proof. vm_compute. repeat split; reflexivity. Qed.

(** C6, as the code has it. When nothing that runs while the call is
    suspended lowers the counter of the pair, one call of [callProvider]
    makes at most [maxRetries] attempts (and so sends at most [maxRetries]
    requests), where [maxRetries] is [options.maxRetries || 3]. Whatever
    runs meanwhile, when the call returns a result the attempt counter of
    the pair reads zero in the state it leaves. *)
Theorem attempts_within_maxRetries_unless_lowered (net : Net) (options : Options)
    (p op : string) (others : Others) (b : ToolBroker) (tr : Trace) :
  (Forall (neverLowers p op) others ->
   (attemptsIn (callProviderAmid net options p op others b tr).2 - attemptsIn tr
      <= maxRetriesOf options)%nat
   /\ (requestsIn (callProviderAmid net options p op others b tr).2 - requestsIn tr
         <= maxRetriesOf options)%nat)
  /\ (forall result : string,
        (callProviderAmid net options p op others b tr).1.1 = Returned result ->
        currentAttemptOf (callProviderAmid net options p op others b tr).1.2 p op
        = 0).
Proof.
  split.
  - intros Hothers.
    pose proof (callProviderAmid_attempts net options p op others b tr Hothers)
      as [_ Ha].
    pose proof (callProviderAmid_requests net options p op others b tr Hothers)
      as [_ Hr].
    lia.
  - intros result Hres. unfold currentAttemptOf.
    by rewrite (callProviderAmid_success_resets _ _ _ _ _ _ _ _ Hres).
Qed.

Lemma dispatch_error_kind (net : Net) (tr : Trace) (p op : string)
    (e : BrokerError) (sent : bool) :
  dispatch net tr p op = (Threw e, sent) ->
  (exists msg, e = CallFailed msg)
  \/ (exists family, e = UnknownOperation family op)
  \/ e = UnknownProvider p.
Proof.
  unfold dispatch, callOpenAI, callElevenLabs, callTwilio, callPinecone,
    callSupabase, callTelegram, callBrave, request, unknownOperation.
  repeat case_bool_decide;
    repeat match goal with
      | |- context [if ?c then _ else _] => destruct c
      | |- context [net ?t ?x ?y] => destruct (net t x y)
      end;
    intros [= <- <-] || intros [=]; eauto.
Qed.

(** C3, as the code has it. Take a call of [callProvider] during which no
    other task changes whether the provider is registered, whether its
    circuit is open, or the counter of the pair. When the call has made at
    least one attempt and throws, every attempt of the call has failed and
    the budget is used up: the error thrown is the error of the last attempt
    itself, raised by the provider call and not a [MaxRetriesExceeded]; the
    counter of the pair is left at [maxRetries]; and a call for the pair
    that finds the broker in that state throws [MaxRetriesExceeded], before
    it can be suspended and with the names of the pair only. *)
Theorem undisturbed_exhaustion_rethrows_last_error (net : Net) (options : Options)
    (p op : string) (others : Others) (b : ToolBroker) (tr : Trace)
    (e : BrokerError) (b' : ToolBroker) (tr' : Trace) :
  Forall (quiet p op) others ->
  callProviderAmid net options p op others b tr = (Threw e, b', tr') ->
  (attemptsIn tr < attemptsIn tr')%nat ->
  (exists sent hist,
      tr' = EvAttempt p op sent :: hist
      /\ dispatch net hist p op = (Threw e, sent))
  /\ (forall p' op', e <> MaxRetriesExceeded p' op')
  /\ currentAttemptOf b' p op = maxRetriesOf options
  /\ (forall (net' : Net) (others' : Others) (later : Trace),
        callProviderAmid net' options p op others' b' later
          = (Threw (MaxRetriesExceeded p op), b', EvInvoke p op :: later)).
Proof.
  intros Hothers Hout Hmade.
  assert (Hguards : isRegistered b p = true /\ circuitOpen b p = None
                    /\ (currentAttemptOf b p op < maxRetriesOf options)%nat).
  { apply (callProviderAmid_attempt_made net options p op others b tr).
    by rewrite Hout. }
  destruct Hguards as (Hreg & Hcirc & Hroom).
  destruct (callProviderAmid_exhausted net options p op others b tr e b' tr'
              Hothers Hout Hreg Hcirc Hroom)
    as ((sent & hist & Htr & Hlast) & Hfull & Hreg' & Hcirc' & _).
  repeat split.
  - eauto.
  - intros p' op' ->.
    destruct (dispatch_error_kind _ _ _ _ _ _ Hlast) as [[? ?]|[[? ?]|?]]; done.
  - done.
  - intros net' others' later. rewrite callProviderAmid_body. cbn zeta.
    rewrite Hreg', Hcirc', Hfull, Nat.leb_refl. done.
Qed.

(** C3, refuted as stated. With the default budget of three, all three
    attempts against [openai] fail with "boom"; the call throws that very
    error, whose message does not mention retries, and not
    [MaxRetriesExceeded]. *)
Lemma exhausted_retries_throw_underlying_error :
  let out := callProvider (failing "boom") defaultOptions "openai" "chat"
               (initialBroker ["openai"]) [] in
  attemptsIn out.2 = maxRetriesOf defaultOptions
  /\ out.1.1 = Threw (CallFailed "boom")
  /\ out.1.1 <> Threw (MaxRetriesExceeded "openai" "chat")
  /\ message (CallFailed "boom") = "boom".
Proof. vm_compute. repeat split; try reflexivity. discriminate. Qed.

(** The condition on the other tasks is needed. A [chat] call fails twice
    and waits in backoff for the second time, with the counter at two;
    meanwhile another [chat] call fails once and leaves the counter at
    three. The first call re-enters, finds the budget used up and throws
    [MaxRetriesExceeded], after two attempts of its own. *)
Lemma overlapped_call_is_shut_out :
  let out := callProviderAmid (failing "boom") defaultOptions "openai" "chat"
               [nothingElse; nothingElse; nothingElse; anotherChatFails]
               (initialBroker ["openai"]) [] in
  attemptsIn out.2 = 2
  /\ out.1.1 = Threw (MaxRetriesExceeded "openai" "chat").
Proof. vm_compute. split; reflexivity. Qed.

(** *** Fallback chains *)

Lemma tryChain_all_fail (net : Net) (options : Options) (service op : string)
    (chain : list string) (b : ToolBroker) (tr : Trace) (e : BrokerError) :
  (tryChain net options service op chain b tr).1.1 = Threw e ->
  e = AllProvidersFailed service.
Proof.
  revert b tr. induction chain as [|p rest IH]; intros b tr; simpl.
  - by intros [= <-].
  - destruct (callProvider net options p op b tr) as [[[result|e'] b'] tr'];
      simpl; [done | apply IH].
Qed.

(** C2, as the code has it. When the chain of a service is [[A; B]] and
    the calls to [A] and then to [B] both throw, [callWithFallback] throws
    [AllProvidersFailed]; the error is built from the service name alone,
    whatever the two errors were. *)
Theorem fallback_chain_exhausted (net : Net) (options : Options)
    (service op A B : string) (b : ToolBroker) (tr : Trace)
    (eA eB : BrokerError) (bA bB : ToolBroker) (trA trB : Trace) :
  fallbacks b !! service = Some [A; B] ->
  callProvider net options A op b tr = (Threw eA, bA, trA) ->
  callProvider net options B op bA trA = (Threw eB, bB, trB) ->
  callWithFallback net options service op b tr
    = (Threw (AllProvidersFailed service), bB, trB)
  /\ message (AllProvidersFailed service)
     = "All providers failed for service: " +:+ service.
Proof.
  intros Hchain HA HB. split; [|reflexivity].
  unfold callWithFallback, fallbackChainOf. rewrite Hchain. simpl.
  by rewrite HA, HB.
Qed.

Lemma fallback_chain_exhausted_witness :
  (callWithFallback (failing "rate limited") defaultOptions "llm" "chat"
     (initialBroker ["openai"]) []).1.1
  = Threw (AllProvidersFailed "llm").
Proof.
  refine (f_equal (fun out : Outcome => out.1.1)
            (proj1 (fallback_chain_exhausted (failing "rate limited")
                      defaultOptions "llm" "chat" "openai" "local"
                      (initialBroker ["openai"]) []
                      (CallFailed "rate limited") (ProviderNotAvailable "local")
                      _ _ _ _ _ _ _))).
  - vm_compute. reflexivity.
  - vm_compute. reflexivity.
  - vm_compute. reflexivity.
Defined.

(** C2, refuted as stated. The chain of ["llm"] is [[openai; local]]. In
    one world [openai] fails with "rate limited", in another with "invalid
    api key"; [local] is not registered in either. Both times the error
    thrown is the same value with the same message: neither cause can be
    read off it. *)
Lemma fallback_error_forgets_causes :
  let b := initialBroker ["openai"] in
  let out1 := callWithFallback (failing "rate limited") defaultOptions "llm" "chat" b [] in
  let out2 := callWithFallback (failing "invalid api key") defaultOptions "llm" "chat" b [] in
  (callProvider (failing "rate limited") defaultOptions "openai" "chat" b []).1.1
    = Threw (CallFailed "rate limited")
  /\ (callProvider (failing "invalid api key") defaultOptions "openai" "chat" b []).1.1
    = Threw (CallFailed "invalid api key")
  /\ out1.1.1 = Threw (AllProvidersFailed "llm")
  /\ out2.1.1 = out1.1.1
  /\ message (AllProvidersFailed "llm") = "All providers failed for service: llm".
Proof. vm_compute. repeat split; reflexivity. Qed.

(** * Properties of the intelligence router *)

(** *** QoS tier selection *)

(** C7. [selectQoSTier] is a function of the intent and the context alone,
    and its rules apply in order: a voice or call context gives [realtime]
    whatever the intent says; otherwise high urgency gives [interactive];
    otherwise complex research gives [batch]; otherwise [interactive]. *)
Theorem selectQoSTier_precedence (intent : Intent) (context : Context) :
  (isVoice context = true \/ isCall context = true ->
   selectQoSTier intent context = realtime)
  /\ (isVoice context = false -> isCall context = false ->
      urgency intent = "high" ->
      selectQoSTier intent context = interactive)
  /\ (isVoice context = false -> isCall context = false ->
      urgency intent <> "high" ->
      complexity intent = "complex" -> category intent = "research" ->
      selectQoSTier intent context = batch)
  /\ (isVoice context = false -> isCall context = false ->
      urgency intent <> "high" ->
      ~ (complexity intent = "complex" /\ category intent = "research") ->
      selectQoSTier intent context = interactive).
Proof.
  unfold selectQoSTier. repeat split.
  - intros [-> | ->]; [done | by rewrite orb_true_r].
  - intros -> -> ->. done.
  - intros -> -> Hu -> ->. simpl.
    apply String.eqb_neq in Hu. by rewrite Hu.
  - intros -> -> Hu Hnot. simpl.
    apply String.eqb_neq in Hu. rewrite Hu.
    destruct (String.eqb_spec (complexity intent) "complex");
      destruct (String.eqb_spec (category intent) "research"); simpl; try done.
    by destruct Hnot.
Qed.

Lemma selectQoSTier_precedence_witness :
  selectQoSTier urgentResearch voiceTurn = realtime.
Proof.
  refine (proj1 (selectQoSTier_precedence urgentResearch voiceTurn) _).
  left. reflexivity.
Defined.

(** *** The cost sentinel *)

(** C10. A request is denied exactly when the daily spend plus the estimate
    exceeds the budget, and a denied request leaves the whole ledger, daily
    spend and request counter included, as it was: the ledger is written on
    the admitting path only. *)
Theorem denied_request_leaves_ledger (envBudget : float) (qosTier : QoSTier)
    (message : string) (t : CostTracker) :
  (allowed (checkCostSentinel envBudget qosTier message t).1 = false <->
   (orElse envBudget 10 <? daily t + estimateRequestCost qosTier message)%float = true)
  /\ (allowed (checkCostSentinel envBudget qosTier message t).1 = false ->
      (checkCostSentinel envBudget qosTier message t).2 = t)
  /\ ((checkCostSentinel envBudget qosTier message t).2 <> t ->
      allowed (checkCostSentinel envBudget qosTier message t).1 = true).
Proof.
  unfold checkCostSentinel. cbn zeta.
  destruct (orElse envBudget 10 <? daily t + estimateRequestCost qosTier message)%float;
    simpl; repeat split; try done.
Qed.

Lemma denied_request_leaves_ledger_witness :
  (checkCostSentinel nan interactive "hello" spentTracker).2 = spentTracker.
Proof.
  refine (proj1 (proj2 (denied_request_leaves_ledger nan interactive "hello"
                          spentTracker)) _).
  vm_compute. reflexivity.
Defined.

(** The check once the budget and the estimate are known. *)
Lemma checkCostSentinel_known (envBudget : float) (qosTier : QoSTier)
    (message : string) (budget cost : float) (t : CostTracker) :
  orElse envBudget 10 = budget ->
  estimateRequestCost qosTier message = cost ->
  checkCostSentinel envBudget qosTier message t
  = if (budget <? daily t + cost)%float
    then (Denied (daily t) cost budget, t)
    else (Allowed cost (budget - (daily t + cost))%float,
          {| daily := (daily t + cost)%float; monthly := monthly t;
             requests := requests t + 1; tokens := tokens t |}).
Proof. intros <- <-. reflexivity. Qed.

(** C5. With a daily budget of 10 and an estimate of 3 for the request, a
    fresh ledger admits three checks in a row, leaving 7, 4 and 1; the
    fourth is denied, reporting a spend of 9, the estimate 3 and the budget
    10, and leaves the ledger at three requests; after [resetDailyCosts] the
    next check is admitted again. *)
Theorem budget_of_ten_admits_three (envBudget : float) (qosTier : QoSTier)
    (message : string) :
  orElse envBudget 10 = 10%float ->
  estimateRequestCost qosTier message = 3%float ->
  let check := checkCostSentinel envBudget qosTier message in
  let s1 := check freshTracker in
  let s2 := check s1.2 in
  let s3 := check s2.2 in
  let s4 := check s3.2 in
  let s5 := check (resetDailyCosts s4.2) in
  s1 = (Allowed 3 7, spent 3 1)
  /\ s2 = (Allowed 3 4, spent 6 2)
  /\ s3 = (Allowed 3 1, spent 9 3)
  /\ s4 = (Denied 9 3 10, spent 9 3)
  /\ resetDailyCosts s4.2 = freshTracker
  /\ s5 = (Allowed 3 7, spent 3 1).
Proof.
  intros Hbudget Hcost. cbv zeta.
  pose proof (fun t => checkCostSentinel_known envBudget qosTier message
                         10 3 t Hbudget Hcost) as Hstep.
  assert (H1 : checkCostSentinel envBudget qosTier message freshTracker
               = (Allowed 3 7, spent 3 1)) by (rewrite Hstep; reflexivity).
  rewrite H1. cbn [fst snd].
  assert (H2 : checkCostSentinel envBudget qosTier message (spent 3 1)
               = (Allowed 3 4, spent 6 2)) by (rewrite Hstep; reflexivity).
  rewrite H2. cbn [fst snd].
  assert (H3 : checkCostSentinel envBudget qosTier message (spent 6 2)
               = (Allowed 3 1, spent 9 3)) by (rewrite Hstep; reflexivity).
  rewrite H3. cbn [fst snd].
  assert (H4 : checkCostSentinel envBudget qosTier message (spent 9 3)
               = (Denied 9 3 10, spent 9 3)) by (rewrite Hstep; reflexivity).
  rewrite H4. cbn [fst snd].
  assert (Hreset : resetDailyCosts (spent 9 3) = freshTracker) by reflexivity.
  rewrite Hreset, H1. repeat split; reflexivity.
Qed.

Lemma budget_of_ten_admits_three_witness :
  (checkCostSentinel nan interactive longMessage
     (checkCostSentinel nan interactive longMessage
        (checkCostSentinel nan interactive longMessage
           (checkCostSentinel nan interactive longMessage freshTracker).2).2).2).1
  = Denied 9 3 10.
Proof.
  refine (f_equal fst (proj1 (proj2 (proj2 (proj2
            (budget_of_ten_admits_three nan interactive longMessage _ _)))))).
  - vm_compute. reflexivity.
  - vm_compute. reflexivity.
Defined.

(** *** The intent cache *)

Section ClassifierProperties.

Variable hashMessage : string -> string.
Variable parseIntent : string -> option Intent.

(** C8, as the code has it. When a call of [classifyIntent] misses the
    cache, gets an answer from the broker and can read it, a second call
    with the same message made less than five minutes after the entry was
    written returns the same intent and touches nothing: the router and
    the trace are unchanged, so the broker is not called at all. *)
Theorem second_classification_is_cached (net1 net2 : Net) (message : string)
    (context1 context2 : Context) (now1 stored1 now2 stored2 : Z)
    (r : Router) (tr : Trace)
    (payload : string) (parsed : Intent) (b1 : ToolBroker) (tr1 : Trace) :
  cacheHit (intentCache r !! ("intent_" +:+ hashMessage message)) now1 = None ->
  callProvider net1 defaultOptions "openai" "chat" (toolBroker r) tr
    = (Returned payload, b1, tr1) ->
  parseIntent payload = Some parsed ->
  (now2 - stored1 < 300000)%Z ->
  let first := classifyIntent hashMessage parseIntent net1 message context1
                 now1 stored1 r tr in
  let second := classifyIntent hashMessage parseIntent net2 message context2
                  now2 stored2 first.1.2 first.2 in
  first.1.1 = enhance parsed context1
  /\ first.2 = tr1
  /\ second = first.
Proof.
  intros Hmiss Hcall Hparse Hfresh. cbv zeta.
  assert (Hfirst :
    classifyIntent hashMessage parseIntent net1 message context1 now1 stored1 r tr
    = (enhance parsed context1,
       {| toolBroker := b1;
          intentCache :=
            <["intent_" +:+ hashMessage message :=
                {| cachedIntent := enhance parsed context1;
                   cachedAt := stored1 |}]> (intentCache r);
          memoryShaping := memoryShaping r;
          costTracker := costTracker r |},
       tr1)).
  { unfold classifyIntent. by rewrite Hmiss, Hcall, Hparse. }
  rewrite Hfirst. cbn [fst snd]. repeat split.
  unfold classifyIntent. cbn [intentCache].
  rewrite lookup_insert_eq. unfold cacheHit. cbn [cachedAt cachedIntent].
  destruct (Z.ltb_spec (now2 - stored1) 300000); [reflexivity | lia].
Qed.

End ClassifierProperties.

Lemma second_classification_is_cached_witness :
  classifyIntent (fun m => m) readSample (failing "offline") "hi" voiceTurn
    60000 60000
    (classifyIntent (fun m => m) readSample (answering sampleReply) "hi" plainChat
       0 120 (initialRouter (initialBroker ["openai"])) []).1.2
    (classifyIntent (fun m => m) readSample (answering sampleReply) "hi" plainChat
       0 120 (initialRouter (initialBroker ["openai"])) []).2
  = classifyIntent (fun m => m) readSample (answering sampleReply) "hi" plainChat
      0 120 (initialRouter (initialBroker ["openai"])) [].
Proof.
  refine (proj2 (proj2
            (second_classification_is_cached (fun m => m) readSample
               (answering sampleReply) (failing "offline") "hi"
               plainChat voiceTurn 0 120 60000 60000
               (initialRouter (initialBroker ["openai"])) []
               sampleReply sampleIntent _ _ _ _ _ _))).
  - vm_compute. reflexivity.
  - vm_compute. reflexivity.
  - vm_compute. reflexivity.
  - lia.
Defined.

(** C8, refuted as stated. The provider answers in prose, which
    [JSON.parse] rejects; the router falls back to the default intent and
    caches nothing. A second call with the same message one second later
    sends the request again: two requests for two calls. *)
Lemma unreadable_reply_is_requested_again :
  let r := initialRouter (initialBroker ["openai"]) in
  let net := answering "I am sorry, I cannot classify this." in
  let first := classifyIntent (fun m => m) readSample net "hi" plainChat 0 120 r [] in
  let second := classifyIntent (fun m => m) readSample net "hi" plainChat
                  1000 1120 first.1.2 first.2 in
  requestsIn first.2 = 1
  /\ first.1.1 = getFallbackIntent "hi"
  /\ intentCache first.1.2 !! "intent_hi" = None
  /\ requestsIn second.2 = 2
  /\ second.2 = [EvAttempt "openai" "chat" true; EvInvoke "openai" "chat";
                 EvAttempt "openai" "chat" true; EvInvoke "openai" "chat"].
Proof. vm_compute. repeat split; reflexivity. Qed.

(** *** Memory decay *)

Lemma in_lastTen {A : Type} (x : A) (l : list A) : In x (lastTen l) -> In x l.
Proof.
  unfold lastTen. intros Hin.
  rewrite <- (firstn_skipn (length l - 10) l). apply in_or_app. by right.
Qed.

Lemma cleanupMemory_pins (type : MemoryType) (now : Z) (m : MemoryShaping) :
  pins (cleanupMemory type now m) = pins m.
Proof. by destruct type. Qed.

(** C9, as the code has it. An item whose age exceeds the short-term
    horizon when [cleanupMemory('shortTerm')] runs is absent from the context
    assembled from the swept memory; [assembleMemoryContext] itself never
    looks at an age. Sweeping, whatever the tier, leaves the pins alone, and
    the context carries all of them. *)
Theorem swept_context_drops_expired (message : string) (intent : Intent)
    (now : Z) (m : MemoryShaping) (item : MemoryItem) :
  (decay shortTermT < now - timestamp item)%Z ->
  ~ In item (ctxShortTerm
               (assembleMemoryContext message intent
                  (cleanupMemory shortTermT now m)))
  /\ (forall type : MemoryType,
        ctxPins (assembleMemoryContext message intent (cleanupMemory type now m))
        = pins m).
Proof.
  intros Hold. split.
  - simpl. intros Hin. apply in_map_iff in Hin as ((key & item') & <- & Hin).
    apply in_lastTen, filter_In in Hin as [_ Hkeep]. simpl in Hkeep.
    unfold expired in Hkeep. simpl in Hold, Hkeep.
    destruct (Z.ltb_spec 3600000 (now - timestamp item')); [done | lia].
  - intros type. simpl. apply cleanupMemory_pins.
Qed.

Lemma swept_context_drops_expired_witness :
  ~ In {| content := "hello"; timestamp := 0 |}
      (ctxShortTerm
         (assembleMemoryContext "and now?" (getFallbackIntent "and now?")
            (cleanupMemory shortTermT 3600001 oneTurn))).
Proof.
  refine (proj1 (swept_context_drops_expired "and now?"
                   (getFallbackIntent "and now?") 3600001 oneTurn
                   {| content := "hello"; timestamp := 0 |} _)).
  simpl. lia.
Defined.

(** C9, refuted as stated. An item is stored at time 0 and pinned nowhere.
    The hourly sweep that runs at 3600000 finds its age equal to the
    horizon, not beyond it, and keeps it. [assembleMemoryContext] does not
    read the clock, so at any time before the next sweep, two hours after
    the insertion say, the context it assembles contains the item. *)
Lemma expired_item_still_in_context :
  let swept := cleanupMemory shortTermT 3600000 oneTurn in
  pins swept = []
  /\ In {| content := "hello"; timestamp := 0 |}
        (ctxShortTerm
           (assembleMemoryContext "and now?" (getFallbackIntent "and now?") swept)).
Proof. vm_compute. split; [reflexivity | left; reflexivity]. Qed.

(** * Further properties of the tool broker *)

(** *** The registry *)

Lemma sweep_providers (world : string -> Probe) (names : list string)
    (b : ToolBroker) :
  providers (fold_left (checkOne world) names b) = providers b.
Proof.
  revert b. induction names as [|x rest IH]; intros b; simpl; [done|].
  by rewrite IH, checkOne_providers.
Qed.

Lemma reachable_NoDup (b : ToolBroker) : reachable b -> NoDup (providers b).
Proof.
  induction 1 as [|x b _ IH|b _ IH|world x b _ IH Hx|world b _ IH
                 |net options p op b tr _ IH
                 |net options service op b tr _ IH].
  - apply NoDup_nil_2.
  - simpl. case_bool_decide; [done|].
    apply NoDup_app. split; [done|]. split; [|apply NoDup_singleton].
    intros y Hy Hin. apply list_elem_of_singleton in Hin. by subst.
  - done.
  - by rewrite checkOne_providers.
  - unfold performHealthChecks. by rewrite sweep_providers.
  - by rewrite (proj1 (callProvider_sameRegistry net options p op b tr)).
  - by rewrite (proj1 (callWithFallback_sameRegistry net options service op b tr)).
Qed.

(** *** What one sweep records *)

(** The record a probe leaves for a provider that had [before] failures. *)
Definition probeRecord (world : string -> Probe) (before : nat) (p : string)
  : Health :=
  match probeOutcome p (reply (world p)) with
  | inl isHealthy =>
      {| healthy := isHealthy; latency := Some (elapsed (world p));
         lastCheck := checkedAt (world p);
         consecutiveFailures := if isHealthy then 0 else before + 1;
         error := None |}
  | inr msg =>
      {| healthy := false; latency := None; lastCheck := checkedAt (world p);
         consecutiveFailures := before + 1; error := Some msg |}
  end.

Lemma checkOne_self (world : string -> Probe) (b : ToolBroker) (p : string) :
  healthStatus (checkOne world b p) !! p
  = Some (probeRecord world (failuresSoFar b p) p).
Proof.
  unfold checkOne, probeRecord.
  destruct (probeOutcome p (reply (world p))); simpl; by rewrite lookup_insert_eq.
Qed.

Lemma checkOne_other (world : string -> Probe) (b : ToolBroker) (x p : string) :
  x <> p -> healthStatus (checkOne world b x) !! p = healthStatus b !! p.
Proof.
  intros Hne. unfold checkOne.
  destruct (probeOutcome x (reply (world x))); simpl; by rewrite lookup_insert_ne.
Qed.

Lemma sweep_other (world : string -> Probe) (names : list string)
    (b : ToolBroker) (p : string) :
  p ∉ names ->
  healthStatus (fold_left (checkOne world) names b) !! p = healthStatus b !! p.
Proof.
  revert b. induction names as [|x rest IH]; intros b Hp; simpl; [done|].
  apply not_elem_of_cons in Hp as [Hne Hrest].
  rewrite IH by done. by apply checkOne_other.
Qed.

Lemma sweep_self (world : string -> Probe) (names : list string)
    (b : ToolBroker) (p : string) :
  NoDup names -> p ∈ names ->
  healthStatus (fold_left (checkOne world) names b) !! p
  = Some (probeRecord world (failuresSoFar b p) p).
Proof.
  revert b. induction names as [|x rest IH]; intros b Hnd Hp; simpl.
  - by apply elem_of_nil in Hp.
  - apply NoDup_cons in Hnd as [Hx Hnd].
    apply elem_of_cons in Hp as [->|Hp].
    + rewrite sweep_other by done. apply checkOne_self.
    + rewrite IH by done. unfold failuresSoFar.
      rewrite checkOne_other; [done|]. intros ->. done.
Qed.

(** X1. One sweep leaves, for every registered provider, the record of its
    own probe: healthy exactly when the probe completed with a positive
    test, and a failure count that is zero when healthy and the count
    before plus one otherwise. Records of names that are not registered are
    not touched. *)
Theorem sweep_counts_failures (world : string -> Probe) (b : ToolBroker)
    (p : string) :
  reachable b ->
  (p ∈ providers b ->
   exists h,
     healthStatus (performHealthChecks world b) !! p = Some h
     /\ healthy h
        = match probeOutcome p (reply (world p)) with
          | inl isHealthy => isHealthy
          | inr _ => false
          end
     /\ consecutiveFailures h
        = (if healthy h then 0 else failuresSoFar b p + 1)%nat
     /\ lastCheck h = checkedAt (world p))
  /\ (p ∉ providers b ->
      healthStatus (performHealthChecks world b) !! p = healthStatus b !! p).
Proof.
  intros Hreach. split; intros Hp; unfold performHealthChecks.
  - rewrite sweep_self by (done || by apply reachable_NoDup).
    eexists; split; [reflexivity|]. unfold probeRecord.
    destruct (probeOutcome p (reply (world p))) as [[|]|msg]; by simpl.
  - by apply sweep_other.
Qed.

(** X2. After a sweep the circuit of a registered provider is open exactly
    when its probe was not healthy and this was at least its fourth failure
    in a row; a single healthy probe closes it. *)
Theorem sweep_opens_circuit_at_fourth_failure (world : string -> Probe)
    (b : ToolBroker) (p : string) :
  reachable b ->
  p ∈ providers b ->
  circuitOpen (performHealthChecks world b) p
  = match probeOutcome p (reply (world p)) with
    | inl true => None
    | _ => if (3 <=? failuresSoFar b p)%nat
           then Some (failuresSoFar b p + 1)%nat else None
    end.
Proof.
  intros Hreach Hp. unfold circuitOpen, performHealthChecks.
  rewrite sweep_self by (done || by apply reachable_NoDup).
  unfold probeRecord.
  destruct (probeOutcome p (reply (world p))) as [[|]|msg];
    cbn [healthy consecutiveFailures negb andb]; try done;
    destruct (Nat.leb_spec 3 (failuresSoFar b p));
    destruct (Nat.ltb_spec 3 (failuresSoFar b p + 1)); try done; exfalso; lia.
Qed.

(** *** Providers that are never probed *)

Lemma unprobed_outcome (p : string) (r : ProbeReply) :
  probed p = false -> probeOutcome p r = inl true.
Proof.
  unfold probed, oneOf, probeOutcome. simpl. intros Hp.
  repeat case_bool_decide; subst; try done.
Qed.

(** Every record of a provider that is not probed says healthy. *)
Definition unprobedHealthy (b : ToolBroker) : Prop :=
  forall (p : string) (h : Health),
    probed p = false -> healthStatus b !! p = Some h -> healthy h = true.

Lemma checkOne_unprobed (world : string -> Probe) (b : ToolBroker) (x : string) :
  unprobedHealthy b -> unprobedHealthy (checkOne world b x).
Proof.
  intros Hb p h Hp. destruct (decide (x = p)) as [->|Hne].
  - rewrite checkOne_self. intros [= <-]. unfold probeRecord.
    by rewrite (unprobed_outcome p _ Hp).
  - rewrite checkOne_other by done. by apply Hb.
Qed.

Lemma sweep_unprobed (world : string -> Probe) (names : list string)
    (b : ToolBroker) :
  unprobedHealthy b -> unprobedHealthy (fold_left (checkOne world) names b).
Proof.
  revert b. induction names as [|x rest IH]; intros b Hb; simpl; [done|].
  by apply IH, checkOne_unprobed.
Qed.

Lemma reachable_unprobed (b : ToolBroker) : reachable b -> unprobedHealthy b.
Proof.
  induction 1 as [|x b _ IH|b _ IH|world x b _ IH Hx|world b _ IH
                 |net options p op b tr _ IH
                 |net options service op b tr _ IH].
  - intros p h _. simpl. by rewrite lookup_empty.
  - done.
  - done.
  - by apply checkOne_unprobed.
  - by apply sweep_unprobed.
  - intros q h.
    rewrite (proj1 (proj2 (callProvider_sameRegistry net options p op b tr))).
    apply IH.
  - intros q h.
    rewrite (proj1 (proj2 (callWithFallback_sameRegistry net options service op b tr))).
    apply IH.
Qed.

Lemma callProvider_unhealthy_only_if_open (net : Net) (options : Options)
    (p op : string) (b : ToolBroker) (tr : Trace) (q : string) (n : nat) :
  (callProvider net options p op b tr).1.1 = Threw (ProviderUnhealthy q n) ->
  circuitOpen b p = Some n.
Proof.
  funelim (callProvider net options p op b tr); simpl; try done.
  - by intros [= _ <-].
  - match goal with IH : forall q n, _ |- _ => apply IH end.
  - intros [= ->].
    match goal with
      Hd : dispatch _ _ _ _ = _ |- _ =>
        destruct (dispatch_error_kind _ _ _ _ _ _ Hd) as [[? ?]|[[? ?]|?]]; done
    end.
Qed.

(** X3. The sweep awaits a request for [openai], [twilio], [supabase] and
    [brave] only; every other provider is recorded healthy whatever the
    world does. So on every reachable state the circuit of such a provider
    is closed, and [callProvider] never refuses it as unhealthy. *)
Theorem unprobed_provider_is_never_refused (net : Net) (options : Options)
    (p op : string) (b : ToolBroker) (tr : Trace) :
  reachable b ->
  probed p = false ->
  circuitOpen b p = None
  /\ (forall q n,
        (callProvider net options p op b tr).1.1 <> Threw (ProviderUnhealthy q n)).
Proof.
  intros Hreach Hp.
  assert (Hclosed : circuitOpen b p = None).
  { unfold circuitOpen. destruct (healthStatus b !! p) as [h|] eqn:Hh; [|done].
    by rewrite (reachable_unprobed b Hreach p h Hp Hh). }
  split; [done|]. intros q n Hout.
  apply callProvider_unhealthy_only_if_open in Hout. congruence.
Qed.

(** X4. On every reachable state [getHealthStatus] reports a provider if
    and only if a probe has recorded its health, reports the record as it
    is, and marks every provider it reports as available. (The report is a
    plain object, which would not store the key [__proto__]; no provider
    has that name.) *)
Theorem getHealthStatus_reports_registered (b : ToolBroker) (p : string) :
  reachable b ->
  p <> "__proto__" ->
  getHealthStatus b !! p
  = (fun h => {| reported := h; available := true |}) <$> healthStatus b !! p.
Proof.
  intros Hreach _. unfold getHealthStatus. rewrite map_lookup_imap.
  destruct (healthStatus b !! p) as [h|] eqn:Hh; simpl; [|done].
  destruct (reachable_sound b Hreach p h Hh) as [Hin _].
  unfold isRegistered. by rewrite bool_decide_eq_true_2.
Qed.

(** *** What [initializeProviders] registers *)

Lemma register_known (names : list string) (b : ToolBroker) :
  providers b ⊆ knownProviders -> names ⊆ knownProviders ->
  providers (fold_left register names b) ⊆ knownProviders.
Proof.
  revert b. induction names as [|x rest IH]; intros b Hb Hnames; simpl; [done|].
  apply IH.
  - simpl. case_bool_decide; [done|].
    intros y Hy. apply elem_of_app in Hy as [Hy|Hy]; [by apply Hb|].
    apply list_elem_of_singleton in Hy as ->. apply Hnames. by left.
  - intros y Hy. apply Hnames. by right.
Qed.

Lemma initializeProviders_known (configured : string -> bool) :
  providers (initializeProviders configured) ⊆ knownProviders.
Proof.
  unfold initializeProviders, initialBroker.
  cbn [providers withFallbacks]. apply register_known.
  - intros y Hy. by apply elem_of_nil in Hy.
  - intros y Hy. apply list_elem_of_In, filter_In in Hy as [Hy _].
    by apply list_elem_of_In.
Qed.

(** *** Retry keys *)

Lemma append_nil (t : string) : "" +:+ t = t.
Proof. reflexivity. Qed.

Lemma append_cons (c : Ascii.ascii) (s t : string) :
  String c s +:+ t = String c (s +:+ t).
Proof. reflexivity. Qed.

Lemma append_dash_head (s t : string) :
  noDash s = true -> s <> ("-" +:+ t).
Proof.
  rewrite append_cons, append_nil.
  destruct s as [|c s]; simpl; [done|].
  intros Hc [= -> _]. by vm_compute in Hc.
Qed.

Lemma retryKey_separates (p p' op op' : string) :
  noDash p = true -> noDash p' = true ->
  retryKey p op = retryKey p' op' -> p = p' /\ op = op'.
Proof.
  unfold retryKey. revert p'.
  induction p as [|c p IH]; intros [|c' p'] Hp Hp';
    rewrite ?append_cons, ?append_nil; simpl in Hp, Hp'.
  - by intros [= ->].
  - apply andb_true_iff in Hp' as [Hc' _]. intros [= <- _].
    by vm_compute in Hc'.
  - apply andb_true_iff in Hp as [Hc _]. intros [= -> _].
    by vm_compute in Hc.
  - apply andb_true_iff in Hp as [_ Hp]. apply andb_true_iff in Hp' as [_ Hp'].
    intros [= -> Hrest].
    assert (Hkey : p +:+ "-" +:+ op = p' +:+ "-" +:+ op')
      by (by rewrite append_cons, append_nil).
    destruct (IH p' Hp Hp' Hkey) as [-> ->]. done.
Qed.

(** X5. For provider names without a dash, as all the registered ones
    are, the keys of the attempt counters tell the pairs apart: two pairs
    with the same key are the same pair. *)
Theorem retryKey_injective (p p' op op' : string) :
  noDash p = true -> noDash p' = true ->
  retryKey p op = retryKey p' op' -> p = p' /\ op = op'.
Proof. apply retryKey_separates. Qed.

Lemma retryKey_not_dashless (p op s : string) :
  noDash s = true -> s <> retryKey p op.
Proof.
  unfold retryKey. revert s. induction p as [|c p IH]; intros s Hs.
  - rewrite append_nil. by apply append_dash_head.
  - rewrite append_cons. destruct s as [|c' s]; [done|]. simpl in Hs.
    apply andb_true_iff in Hs as [_ Hs]. intros [= _ Hrest]. by apply (IH s).
Qed.

Lemma known_noDash (x : string) : x ∈ knownProviders -> noDash x = true.
Proof.
  unfold knownProviders. rewrite !elem_of_cons, elem_of_nil.
  intros [->|[->|[->|[->|[->|[->|[->|[]]]]]]]]; reflexivity.
Qed.

(** *** Counters are per pair *)

Lemma callProvider_other_counter (net : Net) (options : Options)
    (p op : string) (b : ToolBroker) (tr : Trace) (k : string) :
  k <> retryKey p op ->
  retryAttempts (callProvider net options p op b tr).1.2 !! k
  = retryAttempts b !! k.
Proof.
  funelim (callProvider net options p op b tr); simpl; intros Hk; try done.
  - by rewrite lookup_delete_ne.
  - match goal with IH : forall k : string, _ |- _ => rewrite IH by done end.
    simpl. by rewrite lookup_insert_ne.
  - by rewrite lookup_insert_ne.
Qed.

(** X6. A call for one pair never changes the attempt counter of another
    pair, as long as the two provider names have no dash. *)
Theorem callProvider_keeps_other_pairs (net : Net) (options : Options)
    (p op p' op' : string) (b : ToolBroker) (tr : Trace) :
  noDash p = true -> noDash p' = true ->
  (p', op') <> (p, op) ->
  currentAttemptOf (callProvider net options p op b tr).1.2 p' op'
  = currentAttemptOf b p' op'.
Proof.
  intros Hp Hp' Hne. unfold currentAttemptOf.
  rewrite callProvider_other_counter; [done|].
  intros Hk. destruct (retryKey_separates p' p op' op Hp' Hp Hk) as [-> ->]. done.
Qed.

(** *** The sweep and the counters *)

Lemma checkOne_counter (world : string -> Probe) (b : ToolBroker) (x k : string) :
  x <> k -> retryAttempts (checkOne world b x) !! k = retryAttempts b !! k.
Proof.
  intros Hne. unfold checkOne.
  destruct (probeOutcome x (reply (world x))) as [[|]|msg]; simpl; try done.
  by rewrite lookup_delete_ne.
Qed.

Lemma sweep_counter (world : string -> Probe) (names : list string)
    (b : ToolBroker) (k : string) :
  k ∉ names ->
  retryAttempts (fold_left (checkOne world) names b) !! k = retryAttempts b !! k.
Proof.
  revert b. induction names as [|x rest IH]; intros b Hk; simpl; [done|].
  apply not_elem_of_cons in Hk as [Hne Hrest].
  rewrite IH by done. by apply checkOne_counter.
Qed.

Lemma sweeps_providers (worlds : list (string -> Probe)) (b : ToolBroker) :
  providers (sweeps worlds b) = providers b.
Proof.
  unfold sweeps. revert b. induction worlds as [|w rest IH]; intros b; simpl; [done|].
  rewrite IH. unfold performHealthChecks. apply sweep_providers.
Qed.

Lemma sweeps_counter (worlds : list (string -> Probe)) (b : ToolBroker)
    (p op : string) :
  providers b ⊆ knownProviders ->
  currentAttemptOf (sweeps worlds b) p op = currentAttemptOf b p op.
Proof.
  unfold sweeps. revert b.
  induction worlds as [|w rest IH]; intros b Hknown; simpl; [done|].
  rewrite IH.
  - unfold currentAttemptOf, performHealthChecks. rewrite sweep_counter; [done|].
    intros Hin. apply Hknown, known_noDash in Hin.
    by apply (retryKey_not_dashless p op) in Hin.
  - unfold performHealthChecks. by rewrite sweep_providers.
Qed.

(** X7. A health sweep deletes the counter stored under the provider's
    name, while the counters of the pairs are stored under
    [provider-operation]: for the providers the broker registers, no sweep
    changes the attempt counter of any pair. So a pair whose counter has
    reached [maxRetries] stays shut out through any number of sweeps, healthy
    or not: the next call still throws without making an attempt. *)
Theorem exhausted_pair_stays_shut_out (net : Net) (options : Options)
    (p op : string) (b : ToolBroker) (tr : Trace)
    (worlds : list (string -> Probe)) :
  providers b ⊆ knownProviders ->
  (maxRetriesOf options <= currentAttemptOf b p op)%nat ->
  currentAttemptOf (sweeps worlds b) p op = currentAttemptOf b p op
  /\ (exists e,
        callProvider net options p op (sweeps worlds b) tr
        = (Threw e, sweeps worlds b, EvInvoke p op :: tr)).
Proof.
  intros Hknown Hfull.
  pose proof (sweeps_counter worlds b p op Hknown) as Hsame.
  split; [done|].
  rewrite callProvider_body. cbn zeta.
  destruct (isRegistered (sweeps worlds b) p); [|eauto].
  destruct (circuitOpen (sweeps worlds b) p); [eauto|].
  rewrite Hsame.
  destruct (Nat.leb_spec (maxRetriesOf options) (currentAttemptOf b p op));
    [eauto | lia].
Qed.

(** *** How long and how often a call tries *)

Lemma delayIn_attempts_nil (p op : string) (tr : Trace) :
  delayIn (EvInvoke p op :: tr) = delayIn tr.
Proof. reflexivity. Qed.

(** X8. A call that no other task disturbs, that makes an attempt and
    throws, has used up the budget exactly: it has made [maxRetries] minus
    the stored count attempts, and has waited between them, doubling from
    one second at count zero, for 1000 * (2^(maxRetries-1) - 2^count)
    milliseconds in all. *)
Theorem undisturbed_exhaustion_counts (net : Net) (options : Options)
    (p op : string) (others : Others) (b : ToolBroker) (tr : Trace)
    (e : BrokerError) (b' : ToolBroker) (tr' : Trace) :
  Forall (quiet p op) others ->
  callProviderAmid net options p op others b tr = (Threw e, b', tr') ->
  (attemptsIn tr < attemptsIn tr')%nat ->
  attemptsIn tr'
    = (attemptsIn tr + (maxRetriesOf options - currentAttemptOf b p op))%nat
  /\ (delayIn tr'
      = delayIn tr
        + 1000 * (2 ^ Z.of_nat (maxRetriesOf options - 1)
                  - 2 ^ Z.of_nat (currentAttemptOf b p op)))%Z.
Proof.
  intros Hothers Hout Hmade.
  destruct (callProviderAmid_attempt_made net options p op others b tr)
    as (Hreg & Hcirc & Hroom).
  { by rewrite Hout. }
  by destruct (callProviderAmid_exhausted net options p op others b tr e b' tr'
                 Hothers Hout Hreg Hcirc Hroom) as (_ & _ & _ & _ & ? & ?).
Qed.

Lemma callProvider_delay (net : Net) (options : Options) (p op : string)
    (b : ToolBroker) (tr : Trace) :
  (delayIn tr <= delayIn (callProvider net options p op b tr).2
   /\ delayIn (callProvider net options p op b tr).2
      <= delayIn tr
         + (if (currentAttemptOf b p op <? maxRetriesOf options)%nat
            then 1000 * (2 ^ Z.of_nat (maxRetriesOf options - 1)
                         - 2 ^ Z.of_nat (currentAttemptOf b p op))
            else 0))%Z.
Proof.
  funelim (callProvider net options p op b tr); simpl.
  1-3: destruct (Nat.ltb_spec (currentAttemptOf b providerName operation)
                   (maxRetriesOf options)); [|lia];
       assert (2 ^ Z.of_nat (currentAttemptOf b providerName operation)
               <= 2 ^ Z.of_nat (maxRetriesOf options - 1))%Z
         by (apply Z.pow_le_mono_r; lia); lia.
  - destruct (Nat.ltb_spec (currentAttemptOf b providerName operation)
                (maxRetriesOf options)); [|lia].
    assert (2 ^ Z.of_nat (currentAttemptOf b providerName operation)
            <= 2 ^ Z.of_nat (maxRetriesOf options - 1))%Z
      by (apply Z.pow_le_mono_r; lia). lia.
  - rewrite currentAttemptOf_setRetry in H. simpl in H.
    destruct (Nat.ltb_spec (S (currentAttemptOf b providerName operation))
                (maxRetriesOf options)); [|lia].
    destruct (Nat.ltb_spec (currentAttemptOf b providerName operation)
                (maxRetriesOf options)); [|lia].
    replace (Z.of_nat (S (currentAttemptOf b providerName operation)))
      with (Z.succ (Z.of_nat (currentAttemptOf b providerName operation)))
      in H by lia.
    rewrite Z.pow_succ_r in H by lia.
    assert (0 < 2 ^ Z.of_nat (currentAttemptOf b providerName operation))%Z
      by (apply Z.pow_pos_nonneg; lia).
    lia.
  - destruct (Nat.ltb_spec (currentAttemptOf b providerName operation)
                (maxRetriesOf options)); [|lia].
    assert (2 ^ Z.of_nat (currentAttemptOf b providerName operation)
            <= 2 ^ Z.of_nat (maxRetriesOf options - 1))%Z
      by (apply Z.pow_le_mono_r; lia). lia.
Qed.

(** X9. When nothing that runs while the call is suspended lowers the
    counter of the pair, one call waits in backoff for less than
    1000 * 2^(maxRetries-1) milliseconds in all: under four seconds with the
    default budget of three. *)
Theorem backoff_is_bounded_unless_lowered (net : Net) (options : Options)
    (p op : string) (others : Others) (b : ToolBroker) (tr : Trace) :
  Forall (neverLowers p op) others ->
  (delayIn (callProviderAmid net options p op others b tr).2 - delayIn tr
   < 1000 * 2 ^ Z.of_nat (maxRetriesOf options - 1))%Z.
Proof.
  intros Hothers.
  pose proof (callProviderAmid_delay net options p op others b tr Hothers)
    as [_ Hd].
  assert (0 < 2 ^ Z.of_nat (currentAttemptOf b p op))%Z
    by (apply Z.pow_pos_nonneg; lia).
  assert (0 < 2 ^ Z.of_nat (maxRetriesOf options - 1))%Z
    by (apply Z.pow_pos_nonneg; lia).
  destruct (currentAttemptOf b p op <? maxRetriesOf options)%nat; lia.
Qed.

(** With a counter that is lowered meanwhile the bound fails: a call whose
    counter another [chat] call deletes during the first backoff waits one
    second, then again one second and two. *)
Lemma overlapped_call_waits_longer :
  delayIn (callProviderAmid (failing "boom") defaultOptions "openai" "chat"
             [nothingElse; anotherChatSucceeds] (initialBroker ["openai"]) []).2
  = 4000%Z.
Proof. vm_compute. reflexivity. Qed.



(** *** What is sent and what comes back *)

Ltac open_dispatch :=
  unfold supported, operationsOf, dispatch, callOpenAI, callElevenLabs,
    callTwilio, callPinecone, callSupabase, callTelegram, callBrave,
    unknownOperation;
  repeat case_bool_decide; subst;
  repeat match goal with
    | |- context [oneOf ?o []] => change (oneOf o []) with false
    | |- context [oneOf ?o ?l] => destruct (oneOf o l)
    end.

Lemma dispatch_supported (net : Net) (tr : Trace) (p op : string) :
  supported p op = true -> dispatch net tr p op = request net tr p op.
Proof. open_dispatch; done. Qed.

Lemma dispatch_unsupported (net : Net) (tr : Trace) (p op : string) :
  supported p op = false -> exists e, dispatch net tr p op = (Threw e, false).
Proof. open_dispatch; intros; try done; eauto. Qed.

Lemma dispatch_sent (net : Net) (tr : Trace) (p op : string)
    (res : Result string) :
  dispatch net tr p op = (res, true) ->
  supported p op = true
  /\ res = match net tr p op with
           | NetOk payload => Returned payload
           | NetErr msg => Threw (CallFailed msg)
           end.
Proof.
  destruct (supported p op) eqn:Hs.
  - rewrite dispatch_supported by done. unfold request. by intros [= <-].
  - destruct (dispatch_unsupported net tr p op Hs) as [e ->]. done.
Qed.

Lemma dispatch_returned (net : Net) (tr : Trace) (p op : string)
    (result : string) (sent : bool) :
  dispatch net tr p op = (Returned result, sent) ->
  sent = true /\ net tr p op = NetOk result.
Proof.
  destruct (supported p op) eqn:Hs.
  - rewrite dispatch_supported by done. unfold request.
    destruct (net tr p op); by intros [= <- <-].
  - destruct (dispatch_unsupported net tr p op Hs) as [e ->]. done.
Qed.

(** X10. What [callProvider] returns is the payload the provider sent in
    answer to the last request of the call, and that request was the last
    thing the call did. *)
Theorem returned_payload_is_last_reply (net : Net) (options : Options)
    (p op : string) (b : ToolBroker) (tr : Trace)
    (result : string) (b' : ToolBroker) (tr' : Trace) :
  callProvider net options p op b tr = (Returned result, b', tr') ->
  exists before,
    tr' = EvAttempt p op true :: EvInvoke p op :: before
    /\ net (EvInvoke p op :: before) p op = NetOk result
    /\ supported p op = true.
Proof.
  revert result b' tr'.
  funelim (callProvider net options p op b tr); intros result' b' tr' Hout;
    try done.
  - injection Hout as <- <- <-.
    match goal with Hd : dispatch _ _ _ _ = _ |- _ =>
      pose proof Hd as Hd'; apply dispatch_returned in Hd' as [-> Hnet];
      apply dispatch_sent in Hd as [Hs _]
    end.
    eauto.
  - match goal with IH : forall r b' tr', _ |- _ => by apply (IH result' b' tr') end.
Qed.

Lemma callProvider_unsupported (net : Net) (options : Options)
    (p op : string) (b : ToolBroker) (tr : Trace) :
  supported p op = false ->
  (exists e, (callProvider net options p op b tr).1.1 = Threw e)
  /\ requestsIn (callProvider net options p op b tr).2 = requestsIn tr.
Proof.
  funelim (callProvider net options p op b tr); intros Hs; simpl;
    rewrite ?requestsIn_cons; simpl; eauto;
    match goal with Hd : dispatch _ _ _ _ = _ |- _ =>
      destruct (dispatch_unsupported net (EvInvoke providerName operation :: tr)
                  providerName operation Hs) as [e' He'];
      rewrite He' in Hd; first [discriminate Hd | injection Hd as <- <-]
    end.
  - match goal with IH : supported _ _ = false -> _ |- _ =>
      destruct (IH Hs) as [Hthrow Hreq] end.
    split; [done|]. rewrite Hreq, !requestsIn_cons. simpl. lia.
  - eauto.
Qed.

(** X11. An operation that the provider's [switch] has no case for, and any
    operation of a provider outside the seven, is never sent: the call
    throws, and no request leaves the process, though the attempts are
    counted and waited for like failed requests. *)
Theorem unsupported_operation_is_never_sent (net : Net) (options : Options)
    (p op : string) (b : ToolBroker) (tr : Trace) :
  supported p op = false ->
  (exists e, (callProvider net options p op b tr).1.1 = Threw e)
  /\ requestsIn (callProvider net options p op b tr).2 = requestsIn tr.
Proof. apply callProvider_unsupported. Qed.

(** *** Fallback chains, in general *)

(** The state after every provider of [chain] has been called in turn and
    has thrown; [None] if one of them returns. *)
Fixpoint failThrough (net : Net) (options : Options) (op : string)
    (chain : list string) (b : ToolBroker) (tr : Trace)
  : option (ToolBroker * Trace) :=
  match chain with
  | [] => Some (b, tr)
  | p :: rest =>
      match callProvider net options p op b tr with
      | (Returned _, _, _) => None
      | (Threw _, b', tr') => failThrough net options op rest b' tr'
      end
  end.

Lemma tryChain_first_success (net : Net) (options : Options)
    (service op : string) (before : list string) (p : string)
    (after : list string) (b : ToolBroker) (tr : Trace)
    (b0 : ToolBroker) (tr0 : Trace) (out : Outcome) (result : string) :
  failThrough net options op before b tr = Some (b0, tr0) ->
  callProvider net options p op b0 tr0 = out ->
  out.1.1 = Returned result ->
  tryChain net options service op (before ++ p :: after)%list b tr = out.
Proof.
  revert b tr. induction before as [|q rest IH]; intros b tr; simpl.
  - intros [= -> ->] Hcall Hres. rewrite Hcall.
    destruct out as [[[r|e] b'] tr']; simpl in Hres; [done | discriminate].
  - destruct (callProvider net options q op b tr) as [[[r|e] b'] tr'];
      [done | apply IH].
Qed.

Lemma tryChain_throws (net : Net) (options : Options) (service op : string)
    (chain : list string) (b : ToolBroker) (tr : Trace) (e : BrokerError)
    (b' : ToolBroker) (tr' : Trace) :
  tryChain net options service op chain b tr = (Threw e, b', tr') ->
  e = AllProvidersFailed service
  /\ failThrough net options op chain b tr = Some (b', tr').
Proof.
  revert b tr. induction chain as [|p rest IH]; intros b tr; simpl.
  - by intros [= <- <- <-].
  - destruct (callProvider net options p op b tr) as [[[r|e0] b0] tr0];
      [done | apply IH].
Qed.

(** X12. [callWithFallback] returns the outcome of the first provider of the
    chain whose call returns, after every provider before it has been
    called and has thrown; the providers after it are not called. *)
Theorem fallback_returns_first_success (net : Net) (options : Options)
    (service op : string) (before : list string) (p : string)
    (after : list string) (b : ToolBroker) (tr : Trace)
    (b0 : ToolBroker) (tr0 : Trace) (result : string)
    (b' : ToolBroker) (tr' : Trace) :
  fallbacks b !! service = Some (before ++ p :: after)%list ->
  failThrough net options op before b tr = Some (b0, tr0) ->
  callProvider net options p op b0 tr0 = (Returned result, b', tr') ->
  callWithFallback net options service op b tr = (Returned result, b', tr').
Proof.
  intros Hchain Hfail Hcall. unfold callWithFallback, fallbackChainOf.
  rewrite Hchain. by eapply tryChain_first_success.
Qed.

(** X13. [callWithFallback] throws only when every provider of the chain
    has been called and has thrown, and then the error is
    [AllProvidersFailed] for the service, never the error of a provider. A
    service without a chain is taken as the name of a single provider. *)
Theorem fallback_throws_only_when_all_fail (net : Net) (options : Options)
    (service op : string) (b : ToolBroker) (tr : Trace)
    (e : BrokerError) (b' : ToolBroker) (tr' : Trace) :
  callWithFallback net options service op b tr = (Threw e, b', tr') ->
  e = AllProvidersFailed service
  /\ failThrough net options op
        (default [service] (fallbacks b !! service)) b tr = Some (b', tr').
Proof.
  unfold callWithFallback, fallbackChainOf. intros Hout.
  destruct (fallbacks b !! service) as [chain|]; simpl;
    by apply tryChain_throws in Hout.
Qed.

(** X14. None of the four chains that [setupFallbacks] installs has a
    second provider that [callProvider] can dispatch to: [local],
    [browser], [duckduckgo] and [sqlite] have no case in its [switch]. So
    for these services [callWithFallback] returns a result exactly when
    the call to the first provider of the chain does. *)
Theorem configured_fallbacks_never_help (net : Net) (options : Options)
    (service op : string) (b : ToolBroker) (tr : Trace) (chain : list string) :
  fallbacks b = setupFallbacks ->
  setupFallbacks !! service = Some chain ->
  exists A B,
    chain = [A; B]
    /\ supported B op = false
    /\ (forall result,
          (callWithFallback net options service op b tr).1.1 = Returned result
          <-> (callProvider net options A op b tr).1.1 = Returned result).
Proof.
  intros Hb Hchain.
  assert (Hshape : exists A B, chain = [A; B] /\ supported B op = false).
  { unfold setupFallbacks in Hchain.
    rewrite !lookup_insert, lookup_empty in Hchain.
    repeat case_decide; try done; injection Hchain as <-; eauto. }
  destruct Hshape as (A & B & -> & HB). exists A, B. repeat split; try done.
  - unfold callWithFallback, fallbackChainOf. rewrite Hb, Hchain. simpl.
    destruct (callProvider net options A op b tr) as [[[r|e] b1] tr1]; [done|].
    simpl.
    destruct (callProvider_unsupported net options B op b1 tr1 HB) as [[e' He'] _].
    destruct (callProvider net options B op b1 tr1) as [[[r'|e''] b2] tr2];
      simpl in *; done.
  - unfold callWithFallback, fallbackChainOf. rewrite Hb, Hchain. simpl.
    destruct (callProvider net options A op b tr) as [[[r|e] b1] tr1]; done.
Qed.

(** * Further properties of the intelligence router *)

Section OrchestratorProperties.

Variable inherits : string -> bool.
Variable hashMessage : string -> string.
Variable parseIntent : string -> option Intent.
Variable parseAdvice : string -> option Advice.

(** *** Choosing the agent *)

Lemma agentMap_available (cat a : string) :
  agentMap cat = Some a -> isAgentAvailable a = true.
Proof.
  unfold agentMap.
  repeat match goal with
    | |- context [String.eqb cat ?s] => destruct (String.eqb cat s)
    end; intros [= <-]; reflexivity.
Qed.

Lemma preferred_agent_wins_aux (intent : Intent) (preferredAgent : option string) :
  (forall a,
     preferredAgent = Some a -> isAgentAvailable a = true ->
     selectTargetAgent inherits intent preferredAgent = Agent a)
  /\ ((forall a, preferredAgent = Some a -> isAgentAvailable a = false) ->
      selectTargetAgent inherits intent preferredAgent
      = agentFor inherits (category intent)).
Proof.
  unfold selectTargetAgent. split.
  - intros a -> Ha. rewrite Ha.
    assert (Htruthy : truthy (Some a) = true).
    { simpl. destruct (String.eqb_spec a ""); [by subst|done]. }
    by rewrite Htruthy.
  - intros Hnone. destruct preferredAgent as [a|]; [|done].
    by rewrite (Hnone a eq_refl), andb_false_r.
Qed.

(** X15. A preferred agent that is available is always the target,
    whatever the intent says; the category decides only when the context
    names no agent or one that is not available. *)
Theorem preferred_agent_wins (intent : Intent) (preferredAgent : option string) :
  (forall a,
     preferredAgent = Some a -> isAgentAvailable a = true ->
     selectTargetAgent inherits intent preferredAgent = Agent a)
  /\ ((forall a, preferredAgent = Some a -> isAgentAvailable a = false) ->
      selectTargetAgent inherits intent preferredAgent
      = agentFor inherits (category intent)).
Proof. apply preferred_agent_wins_aux. Qed.

(** X16. Unless the category is the name of a property that every object
    inherits, the target is one of the nine agents [isAgentAvailable]
    knows; a category outside the map gives [rika]. *)
Theorem target_agent_is_available (intent : Intent)
    (preferredAgent : option string) :
  inherits (category intent) = false ->
  (exists a,
     selectTargetAgent inherits intent preferredAgent = Agent a
     /\ isAgentAvailable a = true)
  /\ (agentMap (category intent) = None -> preferredAgent = None ->
      selectTargetAgent inherits intent preferredAgent = Agent "rika").
Proof.
  intros Hplain. split.
  - unfold selectTargetAgent.
    assert (Hmap : exists a, agentFor inherits (category intent) = Agent a
                             /\ isAgentAvailable a = true).
    { unfold agentFor. destruct (agentMap (category intent)) as [a|] eqn:Hm.
      - exists a. split; [done|]. by apply (agentMap_available (category intent)).
      - rewrite Hplain. by exists "rika". }
    destruct preferredAgent as [a|]; [|done].
    destruct (truthy (Some a) && isAgentAvailable a) eqn:Hpref; [|done].
    apply andb_true_iff in Hpref as [_ Ha]. eauto.
  - intros Hnone ->. unfold selectTargetAgent, agentFor.
    by rewrite Hnone, Hplain.
Qed.

(** X17. A request whose category is [security] and for which no available
    agent is preferred goes to [echo], and every request that goes to
    [echo] needs the council, whatever its urgency, complexity and size. *)
Theorem security_requests_need_council (intent : Intent)
    (preferredAgent : option string) :
  category intent = "security" ->
  (forall a, preferredAgent = Some a -> isAgentAvailable a = false) ->
  selectTargetAgent inherits intent preferredAgent = Agent "echo"
  /\ requiresCouncilCheck intent (selectTargetAgent inherits intent preferredAgent)
     = true.
Proof.
  intros Hcat Hnone.
  assert (Htarget : selectTargetAgent inherits intent preferredAgent = Agent "echo").
  { rewrite (proj2 (preferred_agent_wins_aux intent preferredAgent) Hnone).
    unfold agentFor. by rewrite Hcat. }
  split; [done|]. rewrite Htarget. unfold requiresCouncilCheck.
  destruct (String.eqb (urgency intent) "high" && String.eqb (complexity intent) "complex");
    [done|].
  simpl. done.
Qed.

End OrchestratorProperties.

Section RouteProperties.

Variable inherits : string -> bool.
Variable hashMessage : string -> string.
Variable parseIntent : string -> option Intent.
Variable parseAdvice : string -> option Advice.

(** *** The council *)

Lemma council_frame (net : Net) (message : string) (intent : Intent)
    (target : AgentRef) (started finished : Z) (b : ToolBroker) (tr : Trace) :
  let out := performCouncilCheck parseAdvice net message intent target
               started finished b tr in
  out.1.2 = (callProvider net councilOptions "openai" "chat" b tr).1.2
  /\ out.2 = (callProvider net councilOptions "openai" "chat" b tr).2.
Proof.
  unfold performCouncilCheck.
  destruct (callProvider net councilOptions "openai" "chat" b tr)
    as [[[payload|e] b'] tr']; simpl; [|done].
  by destruct (parseAdvice payload).
Qed.

(** X18. The council is asked at most once per check: one attempt, one
    request, no waiting. And whatever the provider does, the check comes
    back with a verdict; when the call fails or the answer cannot be read,
    the verdict is to proceed. *)
Theorem council_asks_at_most_once (net : Net) (message : string)
    (intent : Intent) (target : AgentRef) (started finished : Z)
    (b : ToolBroker) (tr : Trace) :
  let out := performCouncilCheck parseAdvice net message intent target
               started finished b tr in
  (attemptsIn out.2 <= attemptsIn tr + 1)%nat
  /\ (requestsIn out.2 <= requestsIn tr + 1)%nat
  /\ delayIn out.2 = delayIn tr
  /\ (forall payload,
        (callProvider net councilOptions "openai" "chat" b tr).1.1
          = Returned payload ->
        parseAdvice payload = None ->
        recommendation (verdictAdvice out.1.1) = "proceed")
  /\ (forall e,
        (callProvider net councilOptions "openai" "chat" b tr).1.1 = Threw e ->
        recommendation (verdictAdvice out.1.1) = "proceed").
Proof.
  cbv zeta.
  destruct (council_frame net message intent target started finished b tr)
    as [_ Htr].
  cbv zeta in Htr. rewrite Htr.
  pose proof (callProvider_attempts net councilOptions "openai" "chat" b tr) as [_ Ha].
  pose proof (callProvider_requests net councilOptions "openai" "chat" b tr) as [_ Hr].
  pose proof (callProvider_delay net councilOptions "openai" "chat" b tr) as [Hd1 Hd2].
  change (maxRetriesOf councilOptions) with 1%nat in *.
  repeat split.
  - lia.
  - lia.
  - destruct (currentAttemptOf b "openai" "chat" <? 1)%nat eqn:Hc; [|lia].
    apply Nat.ltb_lt in Hc.
    replace (currentAttemptOf b "openai" "chat") with 0%nat in Hd2 by lia.
    simpl in Hd2. lia.
  - intros payload Hcall Hparse. unfold performCouncilCheck.
    destruct (callProvider net councilOptions "openai" "chat" b tr)
      as [[[payload'|e] b'] tr']; simpl in *; [|done].
    injection Hcall as ->. by rewrite Hparse.
  - intros e Hcall. unfold performCouncilCheck.
    destruct (callProvider net councilOptions "openai" "chat" b tr)
      as [[[payload'|e'] b'] tr']; simpl in *; done.
Qed.

(** X19. The council calls [openai] for [chat] with a budget of one
    attempt, under the counter every other chat call uses. So as soon as
    that counter is not zero, after a failed classification say, the
    council is not asked at all: the check answers [council_unavailable]
    without an attempt and leaves the broker as it is. *)
Theorem council_is_skipped_after_a_failure (net : Net) (message : string)
    (intent : Intent) (target : AgentRef) (started finished : Z)
    (b : ToolBroker) (tr : Trace) :
  (1 <= currentAttemptOf b "openai" "chat")%nat ->
  performCouncilCheck parseAdvice net message intent target started finished b tr
  = (CouncilUnavailable (finished - started), b, EvInvoke "openai" "chat" :: tr).
Proof.
  intros Hcount. unfold performCouncilCheck.
  rewrite callProvider_body. cbn zeta.
  destruct (isRegistered b "openai"); [|done].
  destruct (circuitOpen b "openai"); [done|].
  change (maxRetriesOf councilOptions) with 1%nat.
  destruct (Nat.leb_spec 1 (currentAttemptOf b "openai" "chat")); [done | lia].
Qed.

(** *** Classification *)

Lemma classifyIntent_cases (net : Net) (message : string) (context : Context)
    (now storedAt : Z) (r : Router) (tr : Trace) :
  let out := classifyIntent hashMessage parseIntent net message context
               now storedAt r tr in
  (out.1.2 = r /\ out.2 = tr)
  \/ (toolBroker out.1.2
        = (callProvider net defaultOptions "openai" "chat" (toolBroker r) tr).1.2
      /\ out.2 = (callProvider net defaultOptions "openai" "chat" (toolBroker r) tr).2
      /\ memoryShaping out.1.2 = memoryShaping r
      /\ costTracker out.1.2 = costTracker r
      /\ (intentCache out.1.2 = intentCache r
          \/ exists entry,
               intentCache out.1.2
               = <["intent_" +:+ hashMessage message := entry]> (intentCache r))).
Proof.
  unfold classifyIntent.
  destruct (cacheHit _ _); [by left|]. right.
  destruct (callProvider net defaultOptions "openai" "chat" (toolBroker r) tr)
    as [[[payload|e] b'] tr']; simpl.
  - destruct (parseIntent payload); simpl; repeat split; eauto.
  - repeat split; eauto.
Qed.

Lemma classifyIntent_frame (net : Net) (message : string) (context : Context)
    (now storedAt : Z) (r : Router) (tr : Trace) :
  let out := classifyIntent hashMessage parseIntent net message context
               now storedAt r tr in
  memoryShaping out.1.2 = memoryShaping r
  /\ costTracker out.1.2 = costTracker r
  /\ sameRegistry (toolBroker r) (toolBroker out.1.2)
  /\ (requestsIn tr <= requestsIn out.2 <= requestsIn tr + 3)%nat
  /\ (attemptsIn tr <= attemptsIn out.2 <= attemptsIn tr + 3)%nat.
Proof.
  cbv zeta.
  destruct (classifyIntent_cases net message context now storedAt r tr)
    as [[-> ->]|(Hb & Htr & Hm & Hc & _)].
  - split; [done|]. split; [done|]. split; [apply sameRegistry_refl | lia].
  - rewrite Hb, Htr, Hm, Hc.
    pose proof (callProvider_requests net defaultOptions "openai" "chat"
                  (toolBroker r) tr) as [Hr1 Hr2].
    pose proof (callProvider_attempts net defaultOptions "openai" "chat"
                  (toolBroker r) tr) as [Ha1 Ha2].
    change (maxRetriesOf defaultOptions) with 3%nat in *.
    split; [done|]. split; [done|].
    split; [apply callProvider_sameRegistry | lia].
Qed.

(** X20. [classifyIntent] never removes an entry of the intent cache, not
    even an expired one: a key that is cached stays cached, and one call
    adds at most the key of its own message. *)
Theorem intent_cache_only_grows (net : Net) (message : string)
    (context : Context) (now storedAt : Z) (r : Router) (tr : Trace)
    (key : string) :
  let r' := (classifyIntent hashMessage parseIntent net message context
               now storedAt r tr).1.2 in
  (is_Some (intentCache r !! key) -> is_Some (intentCache r' !! key))
  /\ (key <> "intent_" +:+ hashMessage message ->
      intentCache r' !! key = intentCache r !! key).
Proof.
  cbv zeta.
  destruct (classifyIntent_cases net message context now storedAt r tr)
    as [[-> _]|(_ & _ & _ & _ & [->|[entry ->]])]; try done.
  split.
  - intros Hsome. rewrite lookup_insert. by case_decide.
  - intros Hne. by rewrite lookup_insert_ne.
Qed.

(** *** One request through the router *)

Lemma checkCostSentinel_cases (envBudget : float) (qosTier : QoSTier)
    (message : string) (t : CostTracker) :
  let out := checkCostSentinel envBudget qosTier message t in
  (allowed out.1 = false /\ out.2 = t)
  \/ (allowed out.1 = true
      /\ daily out.2 = (daily t + estimateRequestCost qosTier message)%float
      /\ requests out.2 = (requests t + 1)%Z
      /\ monthly out.2 = monthly t /\ tokens out.2 = tokens t).
Proof.
  unfold checkCostSentinel. cbn zeta.
  destruct (orElse envBudget 10 <? daily t + estimateRequestCost qosTier message)%float;
    simpl; [by left | by right].
Qed.

Lemma withTracker_same (r : Router) : withTracker r (costTracker r) = r.
Proof. by destruct r. Qed.

(** X21. The budget is checked after the classification. When the ledger
    cannot take the estimate, [route] answers with an error response for
    [rika] at the interactive tier that carries the denial, and the ledger is
    as before; but the intent has been classified all the same, so the
    router and the trace are those the classification leaves, requests to the
    provider included, and the council is not asked. *)
Theorem refused_route_has_classified (net : Net) (envBudget : float)
    (uuid : string) (at_ : Times) (message : string) (context : Context)
    (preferredAgent : option string) (r : Router) (tr : Trace) :
  let cls := classifyIntent hashMessage parseIntent net message context
               (consultedAt at_) (writtenAt at_) r tr in
  let check := checkCostSentinel envBudget (selectQoSTier cls.1.1 context)
                 message (costTracker r) in
  allowed check.1 = false ->
  route inherits hashMessage parseIntent parseAdvice net envBudget uuid at_
    message context preferredAgent r tr
  = (Refused {| responseId := uuid; refusal := check.1; fallbackAgent := "rika";
                fallbackTier := interactive; respondedAt := stampTime at_ |},
     cls.1.2, cls.2)
  /\ costTracker cls.1.2 = costTracker r.
Proof.
  cbv zeta. intros Hdenied.
  destruct (classifyIntent_frame net message context (consultedAt at_)
              (writtenAt at_) r tr) as (_ & Hledger & _).
  cbv zeta in Hledger. split; [|done].
  unfold route.
  destruct (classifyIntent hashMessage parseIntent net message context
              (consultedAt at_) (writtenAt at_) r tr) as [[intent r1] tr1].
  simpl in *. rewrite Hledger.
  destruct (checkCostSentinel_cases envBudget (selectQoSTier intent context)
              message (costTracker r)) as [[Hno Hsame]|[Hyes _]];
    cbv zeta in *; [|congruence].
  destruct (checkCostSentinel envBudget (selectQoSTier intent context) message
              (costTracker r)) as [c ledger].
  simpl in *. subst ledger. rewrite Hno. simpl.
  by rewrite <- Hledger, withTracker_same.
Qed.

Lemma route_trace (net : Net) (envBudget : float) (uuid : string) (at_ : Times)
    (message : string) (context : Context) (preferredAgent : option string)
    (r : Router) (tr : Trace) :
  let cls := classifyIntent hashMessage parseIntent net message context
               (consultedAt at_) (writtenAt at_) r tr in
  let out := route inherits hashMessage parseIntent parseAdvice net envBudget
               uuid at_ message context preferredAgent r tr in
  (out.2 = cls.2 /\ toolBroker out.1.2 = toolBroker cls.1.2)
  \/ (out.2 = (callProvider net councilOptions "openai" "chat"
                 (toolBroker cls.1.2) cls.2).2
      /\ toolBroker out.1.2
         = (callProvider net councilOptions "openai" "chat"
              (toolBroker cls.1.2) cls.2).1.2).
Proof.
  cbv zeta. unfold route.
  destruct (classifyIntent hashMessage parseIntent net message context
              (consultedAt at_) (writtenAt at_) r tr) as [[intent r1] tr1].
  destruct (checkCostSentinel envBudget (selectQoSTier intent context) message
              (costTracker r1)) as [c ledger].
  destruct (allowed c); simpl; [|by left].
  destruct (requiresCouncilCheck intent
              (selectTargetAgent inherits intent preferredAgent)); [|by left].
  pose proof (council_frame net message intent
                (selectTargetAgent inherits intent preferredAgent)
                (councilStartTime at_) (councilEndTime at_) (toolBroker r1) tr1)
    as [Hb Htr].
  cbv zeta in Hb, Htr.
  destruct (performCouncilCheck parseAdvice net message intent
              (selectTargetAgent inherits intent preferredAgent)
              (councilStartTime at_) (councilEndTime at_) (toolBroker r1) tr1)
    as [[verdict b3] tr3].
  simpl in *. right. by subst.
Qed.

(** X23. [route] reads the memory and the health records and writes
    neither: after it the three tiers, the pins, the registry of providers,
    their health and the fallback chains are what they were. *)
Theorem route_leaves_memory_and_health (net : Net) (envBudget : float)
    (uuid : string) (at_ : Times) (message : string) (context : Context)
    (preferredAgent : option string) (r : Router) (tr : Trace) :
  let r' := (route inherits hashMessage parseIntent parseAdvice net envBudget
               uuid at_ message context preferredAgent r tr).1.2 in
  memoryShaping r' = memoryShaping r
  /\ providers (toolBroker r') = providers (toolBroker r)
  /\ healthStatus (toolBroker r') = healthStatus (toolBroker r)
  /\ fallbacks (toolBroker r') = fallbacks (toolBroker r).
Proof.
  cbv zeta.
  pose proof (classifyIntent_frame net message context (consultedAt at_)
                (writtenAt at_) r tr) as (Hm & _ & Hsame & _).
  cbv zeta in Hm, Hsame.
  assert (Hreg : sameRegistry (toolBroker r)
                   (toolBroker (route inherits hashMessage parseIntent parseAdvice
                                  net envBudget uuid at_ message context
                                  preferredAgent r tr).1.2)).
  { destruct (route_trace net envBudget uuid at_ message context preferredAgent r tr)
      as [[_ Hb]|[_ Hb]]; cbv zeta in Hb; rewrite Hb; [done|].
    eapply sameRegistry_trans; [exact Hsame | apply callProvider_sameRegistry]. }
  split; [|exact Hreg].
  rewrite <- Hm. unfold route.
  destruct (classifyIntent hashMessage parseIntent net message context
              (consultedAt at_) (writtenAt at_) r tr) as [[intent r1] tr1].
  destruct (checkCostSentinel envBudget (selectQoSTier intent context) message
              (costTracker r1)) as [c ledger].
  destruct (allowed c); simpl; [|done].
  destruct (requiresCouncilCheck intent
              (selectTargetAgent inherits intent preferredAgent)); [|done].
  by destruct (performCouncilCheck parseAdvice net message intent
                 (selectTargetAgent inherits intent preferredAgent)
                 (councilStartTime at_) (councilEndTime at_) (toolBroker r1) tr1)
    as [[verdict b3] tr3].
Qed.

(** X24. What a routing decision says and what it costs. A decision
    returned by [route] carries the tier [selectQoSTier] gives for its
    intent and the context, the agent [selectTargetAgent] gives, and a
    council verdict exactly when [requiresCouncilCheck] asks for one; the
    ledger has then grown by the estimate at that tier and by one request.
    Nothing is said of an error response: the [catch] of [route] also
    answers with one when a step after the cost check has thrown, and the
    ledger is charged by then. *)
Theorem routing_decision_books_the_estimate (net : Net) (envBudget : float)
    (uuid : string) (at_ : Times) (message : string) (context : Context)
    (preferredAgent : option string) (r : Router) (tr : Trace)
    (d : RoutingDecision) :
  let out := route inherits hashMessage parseIntent parseAdvice net envBudget
               uuid at_ message context preferredAgent r tr in
  out.1.1 = Routed d ->
  routedTier d = selectQoSTier (routedIntent d) context
  /\ targetAgent d = selectTargetAgent inherits (routedIntent d) preferredAgent
  /\ (is_Some (councilAdvice d)
      <-> requiresCouncilCheck (routedIntent d) (targetAgent d) = true)
  /\ daily (costTracker out.1.2)
     = (daily (costTracker r)
        + estimateRequestCost (routedTier d) message)%float
  /\ requests (costTracker out.1.2) = (requests (costTracker r) + 1)%Z.
Proof.
  cbv zeta.
  pose proof (classifyIntent_frame net message context (consultedAt at_)
                (writtenAt at_) r tr) as (_ & Hledger & _).
  cbv zeta in Hledger. unfold route.
  destruct (classifyIntent hashMessage parseIntent net message context
              (consultedAt at_) (writtenAt at_) r tr) as [[intent r1] tr1].
  simpl in Hledger.
  destruct (checkCostSentinel_cases envBudget (selectQoSTier intent context)
              message (costTracker r1)) as [[Hno Hsame]|(Hyes & Hd & Hq & _)];
    cbv zeta in *;
    destruct (checkCostSentinel envBudget (selectQoSTier intent context) message
                (costTracker r1)) as [c ledger]; simpl in *.
  - rewrite Hno. simpl. discriminate.
  - rewrite Hyes. simpl.
    destruct (requiresCouncilCheck intent
                (selectTargetAgent inherits intent preferredAgent)) eqn:Hneeds.
    + destruct (performCouncilCheck parseAdvice net message intent
                  (selectTargetAgent inherits intent preferredAgent)
                  (councilStartTime at_) (councilEndTime at_) (toolBroker r1) tr1)
        as [[verdict b3] tr3].
      simpl. intros [= <-]. simpl.
      rewrite Hneeds, Hd, Hq, Hledger. repeat split; eauto.
    + simpl. intros [= <-]. simpl.
      rewrite Hneeds, Hd, Hq, Hledger. repeat split; done.
Qed.

End RouteProperties.

(** * Further properties of the memory *)

(** *** The short-term window *)

(** X25. The context never carries more than ten short-term items: it
    carries the last ten entries in insertion order, or all of them when
    there are fewer. *)
Theorem context_window_is_last_ten (message : string) (intent : Intent)
    (m : MemoryShaping) :
  length (ctxShortTerm (assembleMemoryContext message intent m))
  = Nat.min 10 (length (shortTerm m))
  /\ exists older,
       List.map snd (shortTerm m)
       = (older ++ ctxShortTerm (assembleMemoryContext message intent m))%list.
Proof.
  unfold assembleMemoryContext, lastTen. cbn [ctxShortTerm]. split.
  - rewrite length_map, length_skipn. lia.
  - exists (List.map snd (firstn (length (shortTerm m) - 10) (shortTerm m))).
    by rewrite <- map_app, firstn_skipn.
Qed.

(** *** Keys of the short-term store *)

Lemma entriesSet_keys {V : Type} (key : string) (v : V) (l : list (string * V)) :
  List.map fst (entriesSet key v l)
  = if bool_decide (key ∈ List.map fst l) then List.map fst l
    else (List.map fst l ++ [key])%list.
Proof.
  induction l as [|[k w] rest IH]; simpl; [done|].
  destruct (String.eqb_spec k key) as [->|Hne]; simpl.
  - rewrite bool_decide_eq_true_2; [done | by left].
  - rewrite IH. case_bool_decide as Hin.
    + rewrite bool_decide_eq_true_2; [done | by right].
    + rewrite bool_decide_eq_false_2; [done|].
      intros Hor. apply elem_of_cons in Hor as [->|?]; done.
Qed.

Lemma entriesSet_NoDup {V : Type} (key : string) (v : V) (l : list (string * V)) :
  NoDup (List.map fst l) -> NoDup (List.map fst (entriesSet key v l)).
Proof.
  intros Hnd. rewrite entriesSet_keys. case_bool_decide as Hin; [done|].
  apply NoDup_app. split; [done|]. split; [|apply NoDup_singleton].
  intros x Hx Hk. apply list_elem_of_singleton in Hk. by subst.
Qed.

Lemma entriesSet_In {V : Type} (key : string) (v : V) (l : list (string * V)) :
  In (key, v) (entriesSet key v l).
Proof.
  induction l as [|[k w] rest IH]; simpl; [by left|].
  destruct (String.eqb_spec k key) as [->|Hne]; [by left | by right].
Qed.

Lemma filter_keys_NoDup {V : Type} (f : string * V -> bool) (l : list (string * V)) :
  NoDup (List.map fst l) -> NoDup (List.map fst (List.filter f l)).
Proof.
  induction l as [|kv rest IH]; simpl; [done|].
  intros Hnd. apply NoDup_cons in Hnd as [Hfresh Hnd].
  destruct (f kv); simpl; [|by apply IH].
  apply NoDup_cons. split; [|by apply IH].
  intros Hin. apply Hfresh.
  apply list_elem_of_In, in_map_iff in Hin as (kv' & Hk & Hin).
  apply filter_In in Hin as [Hin _].
  apply list_elem_of_In, in_map_iff. eauto.
Qed.

Lemma keys_unique {V : Type} (l : list (string * V)) (key : string) (v w : V) :
  NoDup (List.map fst l) -> In (key, v) l -> In (key, w) l -> v = w.
Proof.
  induction l as [|[k u] rest IH]; simpl; [done|].
  intros Hnd. apply NoDup_cons in Hnd as [Hfresh Hnd].
  intros [[= -> ->]|Hv] [[= <-]|Hw]; try done.
  - exfalso. apply Hfresh, list_elem_of_In, in_map_iff. by exists (key, w).
  - exfalso. apply Hfresh, list_elem_of_In, in_map_iff. by exists (k, v).
  - by apply IH.
Qed.

Lemma applyOp_keys (m : MemoryShaping) (op : MemoryOp) :
  NoDup (List.map fst (shortTerm m)) ->
  NoDup (List.map fst (shortTerm (applyOp m op))).
Proof.
  intros Hnd. destruct op as [key value now sweptAt|cat text now|item now|type now];
    simpl; try done.
  - by apply filter_keys_NoDup, entriesSet_NoDup.
  - destruct type; simpl; try done. by apply filter_keys_NoDup.
Qed.

Lemma applyOps_keys (ops : list MemoryOp) (m : MemoryShaping) :
  NoDup (List.map fst (shortTerm m)) ->
  NoDup (List.map fst (shortTerm (applyOps ops m))).
Proof.
  unfold applyOps. revert m. induction ops as [|op rest IH]; intros m Hnd; simpl;
    [done|].
  by apply IH, applyOp_keys.
Qed.

(** X26. Storing under a key and reading back. Whatever has been stored,
    pinned and swept before, after [storeShortTermMemory] the store holds
    the new value with its new stamp under the key, and nothing else under
    that key, provided the sweep that closes the method does not already
    find the new item older than the horizon. *)
Theorem stored_item_is_the_entry (ops : list MemoryOp) (key value : string)
    (now sweptAt : Z) :
  (sweptAt - now <= decay shortTermT)%Z ->
  let m' := storeShortTermMemory key value now sweptAt
              (applyOps ops initMemoryShaping) in
  In (key, {| content := value; timestamp := now |}) (shortTerm m')
  /\ (forall item, In (key, item) (shortTerm m') ->
                   item = {| content := value; timestamp := now |})
  /\ NoDup (List.map fst (shortTerm m')).
Proof.
  intros Hfresh. cbv zeta.
  assert (Hnd : NoDup (List.map fst
                         (shortTerm (storeShortTermMemory key value now sweptAt
                                       (applyOps ops initMemoryShaping))))).
  { apply (applyOp_keys _ (OpStoreShort key value now sweptAt)).
    apply applyOps_keys. simpl. apply NoDup_nil_2. }
  assert (Hin : In (key, {| content := value; timestamp := now |})
                  (shortTerm (storeShortTermMemory key value now sweptAt
                                (applyOps ops initMemoryShaping)))).
  { simpl. apply filter_In. split; [apply entriesSet_In|].
    simpl. unfold expired. simpl in Hfresh.
    destruct (Z.ltb_spec 3600000 (sweptAt - now)); [lia | done]. }
  repeat split; try done.
  intros item Hitem. by apply (keys_unique _ key _ _ Hnd Hitem Hin).
Qed.

(** *** Mid-term summaries *)

(** X27. Storing a summary and asking for it. After [storeMidTermMemory]
    for a category that is not the empty string, the context assembled for
    an intent of that category carries exactly the new summary, stamped,
    with an access count one above the one stored before (one when there was
    none). A summary stored under the empty category is never handed out. *)
Theorem stored_summary_is_assembled (message cat text : string) (now : Z)
    (intent : Intent) (m : MemoryShaping) :
  category intent = cat ->
  ctxMidTerm (assembleMemoryContext message intent
                (storeMidTermMemory cat text now m))
  = if String.eqb cat "" then []
    else [{| summary := text; summarisedAt := now;
             accessCount :=
               match midTerm m !! cat with
               | Some s => accessCount s
               | None => 0
               end + 1 |}].
Proof.
  intros <-. simpl. destruct (String.eqb (category intent) ""); [done|].
  by rewrite lookup_insert_eq.
Qed.

(** *** Pins *)

Lemma applyOp_pins (m : MemoryShaping) (op : MemoryOp) :
  exists more, pins (applyOp m op) = (pins m ++ more)%list.
Proof.
  destruct op as [key value now sweptAt|cat text now|item now|type now]; simpl.
  - exists []. by rewrite app_nil_r.
  - exists []. by rewrite app_nil_r.
  - eauto.
  - exists []. by rewrite cleanupMemory_pins, app_nil_r.
Qed.

Lemma applyOps_pins (ops : list MemoryOp) (m : MemoryShaping) :
  exists more, pins (applyOps ops m) = (pins m ++ more)%list.
Proof.
  unfold applyOps. revert m. induction ops as [|op rest IH]; intros m; simpl.
  - exists []. by rewrite app_nil_r.
  - destruct (applyOp_pins m op) as [more1 H1].
    destruct (IH (applyOp m op)) as [more2 H2].
    exists (more1 ++ more2)%list. by rewrite H2, H1, app_assoc.
Qed.

(** X28. A pin is for good. Whatever is stored, pinned or swept after
    [pinToMemory], at whatever times, the context still carries every pin
    that was there, then the new pin, in that order. *)
Theorem pins_are_never_dropped (message item : string) (now : Z)
    (intent : Intent) (m : MemoryShaping) (ops : list MemoryOp) :
  exists later,
    ctxPins (assembleMemoryContext message intent
               (applyOps ops (pinToMemory item now m)))
    = (pins m ++ {| pinned := item; pinnedAt := now |} :: later)%list.
Proof.
  destruct (applyOps_pins ops (pinToMemory item now m)) as [more Hmore].
  exists more. simpl. rewrite Hmore. simpl. by rewrite <- app_assoc.
Qed.

(** *** Sweeping *)

Lemma filter_filter_l {A : Type} (f g : A -> bool) (l : list A) :
  (forall x, f x = true -> g x = true) ->
  List.filter f (List.filter g l) = List.filter f l.
Proof.
  intros Hfg. induction l as [|x rest IH]; simpl; [done|].
  destruct (g x) eqn:Hg; simpl.
  - by rewrite IH.
  - destruct (f x) eqn:Hf; [|done]. rewrite (Hfg x Hf) in Hg. done.
Qed.

Lemma expired_later (maxAge now later stamp : Z) :
  (now <= later)%Z ->
  expired maxAge later stamp = false -> expired maxAge now stamp = false.
Proof.
  unfold expired. intros Hle.
  destruct (Z.ltb_spec maxAge (later - stamp)); [done|].
  destruct (Z.ltb_spec maxAge (now - stamp)); [lia | done].
Qed.

(** X29. A later sweep makes an earlier one of the same tier redundant:
    sweeping at some time and then again at the same or a later time leaves
    what the second sweep alone would leave. In particular a sweep repeated
    at once changes nothing. *)
Theorem later_sweep_subsumes_earlier (type : MemoryType) (now later : Z)
    (m : MemoryShaping) :
  (now <= later)%Z ->
  cleanupMemory type later (cleanupMemory type now m) = cleanupMemory type later m.
Proof.
  intros Hle. destruct type; simpl; f_equal.
  - apply filter_filter_l. intros [key item]. simpl.
    destruct (expired 3600000 later (timestamp item)) eqn:Hl; [done|].
    by rewrite (expired_later _ _ _ _ Hle Hl).
  - apply (map_filter_filter_l (M := gmap string)). intros cat s _. simpl.
    by apply expired_later.
  - apply (map_filter_filter_l (M := gmap string)). intros key item _. simpl.
    by apply expired_later.
Qed.

(** X30. The hourly job of the server sweeps the short-term and the
    mid-term tier. Afterwards the short-term store holds exactly the entries
    it held that are no older than an hour at the first reading of the
    clock, and the mid-term store exactly the summaries no older than a day
    at the second; the long-term tier and the pins are not touched. *)
Theorem memory_cleanup_keeps_the_fresh (now later : Z) (m : MemoryShaping) :
  let m' := performMemoryCleanup now later m in
  (forall key item,
     In (key, item) (shortTerm m')
     <-> In (key, item) (shortTerm m) /\ (now - timestamp item <= 3600000)%Z)
  /\ (forall cat s,
        midTerm m' !! cat = Some s
        <-> midTerm m !! cat = Some s /\ (later - summarisedAt s <= 86400000)%Z)
  /\ longTerm m' = longTerm m
  /\ pins m' = pins m.
Proof.
  cbv zeta. unfold performMemoryCleanup. simpl.
  split; [|split; [|done]].
  - intros key item. rewrite filter_In. simpl. unfold expired.
    destruct (Z.ltb_spec 3600000 (now - timestamp item)); simpl;
      split; intros [Hin Hfresh]; (done || lia || by split; [|lia]).
  - intros cat s. rewrite map_lookup_filter_Some. simpl. unfold expired.
    destruct (Z.ltb_spec 86400000 (later - summarisedAt s));
      split; intros [Hin Hfresh]; (done || lia || by split; [|lia]).
Qed.

(** * Instances

    Each property above that has a premise, applied to one of the
    scenarios. *)

Lemma openai_is_registered : "openai" ∈ providers (initialBroker ["openai"]).
Proof. vm_compute. constructor. Qed.

Lemma sweep_counts_failures_witness :
  exists h,
    healthStatus (performHealthChecks outage (initialBroker ["openai"])) !! "openai"
    = Some h
    /\ healthy h
       = match probeOutcome "openai" (reply (outage "openai")) with
         | inl isHealthy => isHealthy
         | inr _ => false
         end
    /\ consecutiveFailures h
       = (if healthy h then 0
          else failuresSoFar (initialBroker ["openai"]) "openai" + 1)%nat
    /\ lastCheck h = checkedAt (outage "openai").
Proof.
  exact (proj1 (sweep_counts_failures outage (initialBroker ["openai"]) "openai"
                  (initialBroker_reachable ["openai"]))
           openai_is_registered).
Defined.

Lemma afterThreeFailedSweeps_reachable : reachable afterThreeFailedSweeps.
Proof.
  unfold afterThreeFailedSweeps. repeat apply reach_sweep.
  apply initialBroker_reachable.
Qed.

Lemma sweep_opens_circuit_at_fourth_failure_witness :
  circuitOpen (performHealthChecks outage afterThreeFailedSweeps) "openai" = Some 4.
Proof.
  refine (eq_trans
            (sweep_opens_circuit_at_fourth_failure outage afterThreeFailedSweeps
               "openai" afterThreeFailedSweeps_reachable _) _).
  - vm_compute. constructor.
  - vm_compute. reflexivity.
Defined.

Lemma unprobed_provider_is_never_refused_witness :
  circuitOpen
    (performHealthChecks outage
       (performHealthChecks outage (initialBroker ["elevenlabs"])))
    "elevenlabs" = None.
Proof.
  refine (proj1 (unprobed_provider_is_never_refused (answering "audio")
                   defaultOptions "elevenlabs" "synthesize" _ [] _ _)).
  - repeat apply reach_sweep. apply initialBroker_reachable.
  - vm_compute. reflexivity.
Defined.

Lemma exhausted_pair_stays_shut_out_witness :
  currentAttemptOf (sweeps [recovered; recovered] afterFailedChat) "openai" "chat"
  = currentAttemptOf afterFailedChat "openai" "chat".
Proof.
  refine (proj1 (exhausted_pair_stays_shut_out (answering "pong") defaultOptions
                   "openai" "chat" afterFailedChat [] [recovered; recovered] _ _)).
  - assert (Hp : providers afterFailedChat = ["openai"]) by (vm_compute; reflexivity).
    rewrite Hp. intros x Hx. apply list_elem_of_singleton in Hx as ->.
    unfold knownProviders. constructor.
  - vm_compute. lia.
Defined.

(** A call for another pair leaves this pair alone. *)
Lemma callProvider_quiet (net : Net) (options : Options)
    (p' op' p op : string) :
  retryKey p op <> retryKey p' op' ->
  quiet p op (fun b => (callProvider net options p' op' b []).1.2).
Proof.
  intros Hk b.
  destruct (callProvider_sameRegistry net options p' op' b []) as (Hp & Hh & _).
  unfold isRegistered, circuitOpen, currentAttemptOf.
  rewrite Hp, Hh.
  by rewrite (callProvider_other_counter net options p' op' b [] _ Hk).
Qed.

Lemma anotherTranscription_quiet : quiet "openai" "chat" anotherTranscription.
Proof. by apply callProvider_quiet. Qed.

(** A call for the pair that is never answered does not lower its
    counter. *)
Lemma callProvider_unanswered_counter (net : Net) (options : Options)
    (p op : string) (b : ToolBroker) (tr : Trace) :
  (forall hist result, net hist p op <> NetOk result) ->
  (currentAttemptOf b p op
   <= currentAttemptOf (callProvider net options p op b tr).1.2 p op)%nat.
Proof.
  funelim (callProvider net options p op b tr); intros Hnet; simpl; try done.
  - match goal with Hd : dispatch _ _ _ _ = _ |- _ =>
      apply dispatch_returned in Hd as [_ Hd]; by apply Hnet in Hd end.
  - match goal with IH : _ -> (_ <= _)%nat |- _ =>
      specialize (IH Hnet); rewrite currentAttemptOf_setRetry in IH end.
    lia.
  - rewrite currentAttemptOf_setRetry. lia.
Qed.

Lemma anotherChatFails_neverLowers : neverLowers "openai" "chat" anotherChatFails.
Proof. intros b. by apply callProvider_unanswered_counter. Qed.

Lemma attempts_within_maxRetries_unless_lowered_witness :
  (attemptsIn (callProviderAmid flaky defaultOptions "openai" "chat"
                 [nothingElse; anotherTranscription]
                 (initialBroker ["openai"]) []).2 - attemptsIn []
   <= maxRetriesOf defaultOptions)%nat
  /\ currentAttemptOf
       (callProviderAmid flaky defaultOptions "openai" "chat"
          [nothingElse; anotherTranscription]
          (initialBroker ["openai"]) []).1.2 "openai" "chat" = 0.
Proof.
  pose proof (attempts_within_maxRetries_unless_lowered flaky defaultOptions
                "openai" "chat" [nothingElse; anotherTranscription]
                (initialBroker ["openai"]) []) as [Hbound Hreset].
  split.
  - apply Hbound.
    constructor; [by intros b | constructor; [|constructor]].
    apply quiet_neverLowers, anotherTranscription_quiet.
  - apply (Hreset "pong"). vm_compute. reflexivity.
Defined.

Lemma undisturbed_exhaustion_rethrows_last_error_witness :
  currentAttemptOf
    (callProviderAmid (failing "boom") defaultOptions "openai" "chat"
       [nothingElse; anotherTranscription] (initialBroker ["openai"]) []).1.2
    "openai" "chat" = 3.
Proof.
  refine (proj1 (proj2 (proj2
            (undisturbed_exhaustion_rethrows_last_error (failing "boom")
               defaultOptions "openai" "chat"
               [nothingElse; anotherTranscription] (initialBroker ["openai"]) []
               (CallFailed "boom") _ _ _ _ _)))).
  - constructor; [by intros b | constructor; [|constructor]].
    apply anotherTranscription_quiet.
  - vm_compute. reflexivity.
  - vm_compute. lia.
Defined.

Lemma undisturbed_exhaustion_counts_witness :
  delayIn (callProviderAmid (failing "boom") defaultOptions "openai" "chat"
             [nothingElse; anotherTranscription]
             (initialBroker ["openai"]) []).2 = 3000%Z.
Proof.
  refine (eq_trans
            (proj2 (undisturbed_exhaustion_counts (failing "boom") defaultOptions
                      "openai" "chat" [nothingElse; anotherTranscription]
                      (initialBroker ["openai"]) []
                      (CallFailed "boom") _ _ _ _ _)) _).
  - constructor; [by intros b | constructor; [|constructor]].
    apply anotherTranscription_quiet.
  - vm_compute. reflexivity.
  - vm_compute. lia.
  - vm_compute. reflexivity.
Defined.

Lemma backoff_is_bounded_unless_lowered_witness :
  (delayIn (callProviderAmid (failing "boom") defaultOptions "openai" "chat"
              [nothingElse; nothingElse; nothingElse; anotherChatFails]
              (initialBroker ["openai"]) []).2 - delayIn []
   < 1000 * 2 ^ Z.of_nat (maxRetriesOf defaultOptions - 1))%Z.
Proof.
  apply (backoff_is_bounded_unless_lowered (failing "boom") defaultOptions
           "openai" "chat"
           [nothingElse; nothingElse; nothingElse; anotherChatFails]
           (initialBroker ["openai"]) []).
  repeat (apply Forall_cons_2; [by intros b|]).
  apply Forall_cons_2; [apply anotherChatFails_neverLowers | apply Forall_nil_2].
Defined.


Lemma routing_decision_books_the_estimate_witness :
  requests
    (costTracker
       (route inheritedKey (fun m => m) readSample readNothing
          (answering sampleReply) nan "7f3c" someTimes "hello" plainChat None
          (initialRouter (initialBroker ["openai"])) []).1.2)
  = (requests (costTracker (initialRouter (initialBroker ["openai"]))) + 1)%Z.
Proof.
  refine (proj2 (proj2 (proj2 (proj2
            (routing_decision_books_the_estimate inheritedKey (fun m => m)
               readSample readNothing (answering sampleReply) nan "7f3c"
               someTimes "hello" plainChat None
               (initialRouter (initialBroker ["openai"])) [] _ _))))).
  vm_compute. reflexivity.
Defined.

Lemma returned_payload_is_last_reply_witness :
  exists before,
    (callProvider (answering "pong") defaultOptions "openai" "chat"
       (initialBroker ["openai"]) []).2
    = EvAttempt "openai" "chat" true :: EvInvoke "openai" "chat" :: before
    /\ answering "pong" (EvInvoke "openai" "chat" :: before) "openai" "chat"
       = NetOk "pong"
    /\ supported "openai" "chat" = true.
Proof.
  refine (returned_payload_is_last_reply (answering "pong") defaultOptions
            "openai" "chat" (initialBroker ["openai"]) [] "pong" _ _ _).
  vm_compute. reflexivity.
Defined.

Lemma unsupported_operation_is_never_sent_witness :
  requestsIn (callProvider (answering "vector") defaultOptions "openai" "embed"
                (initialBroker ["openai"]) []).2 = requestsIn [].
Proof.
  refine (proj2 (unsupported_operation_is_never_sent (answering "vector")
                   defaultOptions "openai" "embed" (initialBroker ["openai"]) [] _)).
  vm_compute. reflexivity.
Defined.

Lemma fallback_returns_first_success_witness :
  callWithFallback (answering "pong") defaultOptions "llm" "chat"
    (initialBroker ["openai"]) []
  = callProvider (answering "pong") defaultOptions "openai" "chat"
      (initialBroker ["openai"]) [].
Proof.
  refine (eq_trans
            (fallback_returns_first_success (answering "pong") defaultOptions
               "llm" "chat" [] "openai" ["local"] (initialBroker ["openai"]) []
               (initialBroker ["openai"]) [] "pong" _ _ _ _ _) _).
  - vm_compute. reflexivity.
  - reflexivity.
  - vm_compute. reflexivity.
  - vm_compute. reflexivity.
Defined.

Lemma fallback_throws_only_when_all_fail_witness :
  failThrough (failing "boom") defaultOptions "chat" ["openai"; "local"]
    (initialBroker ["openai"]) []
  = Some ((callWithFallback (failing "boom") defaultOptions "llm" "chat"
             (initialBroker ["openai"]) []).1.2,
          (callWithFallback (failing "boom") defaultOptions "llm" "chat"
             (initialBroker ["openai"]) []).2).
Proof.
  refine (proj2 (fallback_throws_only_when_all_fail (failing "boom")
                   defaultOptions "llm" "chat" (initialBroker ["openai"]) []
                   (AllProvidersFailed "llm") _ _ _)).
  vm_compute. reflexivity.
Defined.

Lemma retryKey_injective_witness : "openai" = "openai" /\ "chat" = "chat".
Proof.
  refine (retryKey_injective "openai" "openai" "chat" "chat" _ _ _);
    reflexivity.
Defined.

Lemma getHealthStatus_reports_registered_witness :
  getHealthStatus afterThreeFailedSweeps !! "openai"
  = (fun h => {| reported := h; available := true |})
      <$> healthStatus afterThreeFailedSweeps !! "openai".
Proof.
  refine (getHealthStatus_reports_registered afterThreeFailedSweeps "openai"
            afterThreeFailedSweeps_reachable _).
  intros [=].
Defined.

Lemma callProvider_keeps_other_pairs_witness :
  currentAttemptOf
    (callProvider (failing "boom") defaultOptions "openai" "transcribe"
       afterFailedChat []).1.2 "openai" "chat"
  = currentAttemptOf afterFailedChat "openai" "chat".
Proof.
  refine (callProvider_keeps_other_pairs (failing "boom") defaultOptions
            "openai" "transcribe" "openai" "chat" afterFailedChat [] _ _ _).
  - reflexivity.
  - reflexivity.
  - intros [= ?].
Defined.

Lemma configured_fallbacks_never_help_witness :
  exists A B,
    ["openai"; "local"] = [A; B]
    /\ supported B "chat" = false
    /\ (forall result,
          (callWithFallback (answering "pong") defaultOptions "llm" "chat"
             (initialBroker ["openai"]) []).1.1 = Returned result
          <-> (callProvider (answering "pong") defaultOptions A "chat"
                 (initialBroker ["openai"]) []).1.1 = Returned result).
Proof.
  refine (configured_fallbacks_never_help (answering "pong") defaultOptions
            "llm" "chat" (initialBroker ["openai"]) [] ["openai"; "local"] _ _).
  - reflexivity.
  - vm_compute. reflexivity.
Defined.

Lemma preferred_agent_wins_witness :
  selectTargetAgent inheritedKey urgentResearch (Some "rika") = Agent "rika".
Proof.
  refine (proj1 (preferred_agent_wins inheritedKey urgentResearch (Some "rika"))
            "rika" _ _); reflexivity.
Defined.

Lemma target_agent_is_available_witness :
  exists a,
    selectTargetAgent inheritedKey sampleIntent None = Agent a
    /\ isAgentAvailable a = true.
Proof.
  refine (proj1 (target_agent_is_available inheritedKey sampleIntent None _)).
  vm_compute. reflexivity.
Defined.

Lemma security_requests_need_council_witness :
  requiresCouncilCheck securityIntent
    (selectTargetAgent inheritedKey securityIntent (Some "nobody")) = true.
Proof.
  refine (proj2 (security_requests_need_council inheritedKey securityIntent
                   (Some "nobody") _ _)).
  - reflexivity.
  - intros a [= <-]. vm_compute. reflexivity.
Defined.

Lemma council_is_skipped_after_a_failure_witness :
  performCouncilCheck readNothing (answering "{}") "delete the logs"
    securityIntent (Agent "echo") 6 9 afterFailedChat []
  = (CouncilUnavailable (9 - 6), afterFailedChat, [EvInvoke "openai" "chat"]).
Proof.
  refine (council_is_skipped_after_a_failure readNothing (answering "{}")
            "delete the logs" securityIntent (Agent "echo") 6 9
            afterFailedChat [] _).
  vm_compute. lia.
Defined.

Lemma refused_route_has_classified_witness :
  costTracker
    (classifyIntent (fun m => m) readSample (answering sampleReply) "hello"
       plainChat (consultedAt someTimes) (writtenAt someTimes) spentRouter []).1.2
  = costTracker spentRouter.
Proof.
  refine (proj2 (refused_route_has_classified inheritedKey (fun m => m)
                   readSample readNothing (answering sampleReply) nan
                   "7f3c" someTimes "hello" plainChat None spentRouter [] _)).
  vm_compute. reflexivity.
Defined.

Lemma stored_item_is_the_entry_witness :
  In ("turn-1", {| content := "again"; timestamp := 10 |})
    (shortTerm
       (storeShortTermMemory "turn-1" "again" 10 10
          (applyOps [OpStoreShort "turn-1" "hello" 0 0] initMemoryShaping))).
Proof.
  refine (proj1 (stored_item_is_the_entry [OpStoreShort "turn-1" "hello" 0 0]
                   "turn-1" "again" 10 10 _)).
  simpl. lia.
Defined.

Lemma stored_summary_is_assembled_witness :
  ctxMidTerm
    (assembleMemoryContext "and the budget?" sampleIntent
       (storeMidTermMemory "finance" "saving for a house" 50 initMemoryShaping))
  = if String.eqb "finance" "" then []
    else [{| summary := "saving for a house"; summarisedAt := 50;
             accessCount :=
               match midTerm initMemoryShaping !! "finance" with
               | Some s => accessCount s
               | None => 0
               end + 1 |}].
Proof.
  refine (stored_summary_is_assembled "and the budget?" "finance"
            "saving for a house" 50 sampleIntent initMemoryShaping _).
  reflexivity.
Defined.

Lemma later_sweep_subsumes_earlier_witness :
  cleanupMemory shortTermT 3600001 (cleanupMemory shortTermT 10 oneTurn)
  = cleanupMemory shortTermT 3600001 oneTurn.
Proof.
  refine (later_sweep_subsumes_earlier shortTermT 10 3600001 oneTurn _). lia.
Defined.
